(** * insurance-multi-agent: the upload page and the chat event-stream consumer

    A shallow embedding of [frontend/src/pages/Upload.js] (the [Upload]
    component) and of the [Chat] component that follows it, with the
    properties of the stream loop of [Chat.handleSubmit].

    Conventions of the embedding.
    - A JavaScript string is a [string] holding the UTF-8 bytes of its text.
      The operations the pages use ([startsWith('data: ')], [slice(6)],
      [split('\n')], concatenation) act on ASCII delimiters and agree with
      their byte-wise versions on well-formed text.
    - A chunk is the text [decoder.decode(value)] returns for one
      [reader.read()].
    - React state is threaded explicitly.  The updater functions passed to
      [setMessages] and [setAgentHistory] are applied once each, in the order
      of the calls, as a production build does (the second invocation that
      StrictMode adds in development is not part of the embedding).  The
      updaters of [Chat] mutate the last message in place;
      that object is created by the submission that streams into it and is
      reachable from the message list only, so the list of records below
      carries the same information.
    - An exception raised inside an updater, or by the render of the state
      the updaters leave, is not caught by the handler's [try]: the component
      tree is torn down.  The embedding returns [None] there.  Of the render
      of [Chat] the embedding keeps what can throw: a value put where a React
      child is expected (lines 256, 272, 325, 340-363) that is an object, and
      [ToString] in the class name of an event item (line 336).  Each event is
      checked for the values it brings to the page when it is applied: these
      values stay in the events and in agentsUsed of its message, which is
      rendered from then on. *)

From Stdlib Require Import String Ascii NArith Lia.
From stdpp Require Import base option list strings.

Open Scope string_scope.
Open Scope list_scope.

#[local] Set Warnings "-clear-no-such-hyp".

(** ** JavaScript values *)

(** The result of [JSON.parse].  [JNum] carries the number's canonical
    decimal text ([Number.prototype.toString]); two numbers are the same
    value for [SameValueZero] exactly when their texts are equal.  The
    properties of an object are listed in creation order, each key once. *)
#[warnings="-register-all"]
Inductive json : Type :=
| JNull
| JBool (b : bool)
| JNum (repr : string)
| JStr (s : string)
| JArr (items : list json)
| JObj (props : list (string * json)).

(** What a property read such as [data.agent] evaluates to, up to
    [SameValueZero]: a primitive, or a reference.  The only references the
    chat page stores are the [agent] properties of the events of the message
    in progress, so [VRef i] stands for the object [events[i].agent]. *)
Inductive value : Type :=
| VUndefined
| VNull
| VBool (b : bool)
| VNum (repr : string)
| VStr (s : string)
| VRef (i : nat).

#[global] Instance value_eq_dec : EqDecision value.
Proof. solve_decision. Defined.

(** The host functions the pages call. *)
Class Host : Type := {
  (** [JSON.parse(text)]; [None] when it throws a SyntaxError. *)
  JSON_parse : string → option json;
  (** [ToString] of a value that is not a string; [None] when it throws a
      TypeError. *)
  ToString : json → option string;
  (** [String.prototype.trim]. *)
  String_trim : string → string
}.

(** [o[k]] on a list of own properties. *)
Fixpoint own_property (k : string) (ps : list (string * json)) : option json :=
  match ps with
  | [] => None
  | (k', v) :: ps' => if decide (k = k') then Some v else own_property k ps'
  end.

(** [data.k] for [k] one of [type], [agent], [content], [message], [tool],
    none of which is inherited from a prototype; [None] is [undefined].
    [data] is not [null] where this is used. *)
Definition prop (data : json) (k : string) : option json :=
  match data with
  | JObj ps => own_property k ps
  | _ => None
  end.

(** [data.type === t] for a string literal [t]. *)
Definition type_is (data : json) (t : string) : bool :=
  match prop data "type" with
  | Some (JStr s) => bool_decide (s = t)
  | _ => false
  end.

(** [data.agent], read while [data] is about to become [events[i]]. *)
Definition agent_of (i : nat) (data : json) : value :=
  match prop data "agent" with
  | None => VUndefined
  | Some JNull => VNull
  | Some (JBool b) => VBool b
  | Some (JNum r) => VNum r
  | Some (JStr s) => VStr s
  | Some (JArr _) | Some (JObj _) => VRef i
  end.

(** [ToBoolean]. *)
Definition truthy (v : value) : bool :=
  match v with
  | VUndefined | VNull => false
  | VBool b => b
  | VNum r => negb (bool_decide (r = "0") || bool_decide (r = "NaN"))
  | VStr s => negb (bool_decide (s = ""))
  | VRef _ => true
  end.

(** A value React accepts as a child: a primitive (a string or a number is
    shown, a boolean and [null] show nothing), or an array of such values.
    React throws on an object that is not an element. *)
Fixpoint valid_child (j : json) : bool :=
  match j with
  | JObj _ => false
  | JArr xs => forallb valid_child xs
  | JNull | JBool _ | JNum _ | JStr _ => true
  end.

(** [{data.k}] as a child; [undefined] shows nothing. *)
Definition child_ok (data : json) (k : string) : bool :=
  match prop data k with
  | None => true
  | Some j => valid_child j
  end.

(** [Array.prototype.includes]. *)
Definition includes (l : list value) (v : value) : bool := bool_decide (v ∈ l).

(** [Set.prototype.add] on a set kept in insertion order. *)
Definition Set_add (s : list value) (v : value) : list value :=
  if includes s v then s else s ++ [v].

(** [line.startsWith(p)]. *)
Definition startsWith (line p : string) : bool := String.prefix p line.

(** [line.slice(n)] for [n >= 0]. *)
Fixpoint slice (n : nat) (s : string) : string :=
  match n, s with
  | O, _ => s
  | S n', String _ s' => slice n' s'
  | S _, EmptyString => EmptyString
  end.

(** [s.split(sep)] for a one-character separator. *)
Fixpoint split (sep : ascii) (s : string) : list string :=
  match s with
  | EmptyString => [EmptyString]
  | String c s' =>
      if decide (c = sep) then EmptyString :: split sep s'
      else match split sep s' with
           | l :: ls => String c l :: ls
           | [] => [String c EmptyString]
           end
  end.

Definition newline : ascii := ascii_of_nat 10.

(** ** The upload page *)

Module Upload.

(** A selected [File]: what the page reads of it. *)
Record file : Type := File {
  name : string;
  size : N
}.

(** [result] is [null] or the value last passed to [setResult]. *)
Record state : Type := State {
  files : list file;
  uploading : bool;
  result : json
}.

(** [useState] initial values. *)
Definition initial : state :=
  {| files := []; uploading := false; result := JNull |}.

(** A request handed to [axios.post]. *)
Record request : Type := Request {
  url : string;
  formData : list (string * file);
  contentType : string
}.

(** How [axios.post] settles: with [response.data], or with an error whose
    [message] is the string. *)
Inductive reply : Type :=
| Resolved (data : json)
| Rejected (message : string).

(** Line 5: [process.env.REACT_APP_API_URL || 'http://localhost:8000']. *)
Definition API_URL (env : option string) : string :=
  match env with
  | Some u => if bool_decide (u = "") then "http://localhost:8000" else u
  | None => "http://localhost:8000"
  end.

(** Lines 12-14. *)
Definition handleFileChange (selected : list file) (st : state) : state :=
  {| files := selected; uploading := uploading st; result := result st |}.

(** Lines 19-25: the state while the request is pending. *)
Definition handleUpload_pending (st : state) : state :=
  {| files := files st; uploading := true; result := JNull |}.

(** Lines 16-38: the state once the handler has returned, and the requests
    it sent. *)
Definition handleUpload (env : option string) (st : state) (r : reply)
  : state * list request :=
  if (length (files st) =? 0)%nat then (st, [])
  else
    let formData := map (λ f, ("files", f)) (files st) in
    let sent := {| url := API_URL env +:+ "/embed"; formData := formData;
                   contentType := "multipart/form-data" |} in
    let st1 := handleUpload_pending st in
    let st2 :=
      match r with
      | Resolved data =>
          {| files := []; uploading := uploading st1; result := data |}
      | Rejected message =>
          {| files := files st1; uploading := uploading st1;
             result := JObj [("status", JStr "error");
                             ("message", JStr message)] |}
      end in
    ({| files := files st2; uploading := false; result := result st2 |}, [sent]).

(** Line 75: [disabled={uploading || files.length === 0}]. *)
Definition disabled (st : state) : bool :=
  uploading st || (length (files st) =? 0)%nat.

(** Lines 73-79: a click on the button runs [handleUpload] unless the
    button is disabled. *)
Definition onClick (env : option string) (st : state) (r : reply)
  : state * list request :=
  if disabled st then (st, []) else handleUpload env st r.

End Upload.

(** ** The chat page *)

Module Chat.

Record message : Type := Message {
  role : string;
  content : string;
  events : option (list json);
  agentsUsed : option (list value)
}.

Record state : Type := State {
  query : string;
  messages : list message;
  loading : bool;
  activeAgent : value;
  agentHistory : list value
}.

(** [useState] initial values. *)
Definition initial : state :=
  {| query := ""; messages := []; loading := false;
     activeAgent := VNull; agentHistory := [] |}.

Definition set_messages (ms : list message) (st : state) : state :=
  {| query := query st; messages := ms; loading := loading st;
     activeAgent := activeAgent st; agentHistory := agentHistory st |}.

Definition set_loading (b : bool) (st : state) : state :=
  {| query := query st; messages := messages st; loading := b;
     activeAgent := activeAgent st; agentHistory := agentHistory st |}.

Definition set_activeAgent (v : value) (st : state) : state :=
  {| query := query st; messages := messages st; loading := loading st;
     activeAgent := v; agentHistory := agentHistory st |}.

Definition set_agentHistory (h : list value) (st : state) : state :=
  {| query := query st; messages := messages st; loading := loading st;
     activeAgent := activeAgent st; agentHistory := h |}.

Definition set_query (q : string) (st : state) : state :=
  {| query := q; messages := messages st; loading := loading st;
     activeAgent := activeAgent st; agentHistory := agentHistory st |}.

(** [const updated = [...prev]; const lastMsg = updated[updated.length - 1];
    ... return updated]: the body [f] runs on the last message.  On an empty
    list [lastMsg] is [undefined] and the first property access throws. *)
Fixpoint with_last (f : message → option message) (prev : list message)
  : option (list message) :=
  match prev with
  | [] => None
  | [m] => m' ← f m; Some [m']
  | m :: rest => rest' ← with_last f rest; Some (m :: rest')
  end.

(** The message the updaters write to, [prev[prev.length - 1]]. *)
Definition lastMsg (st : state) : option message := last (messages st).

(** The index the next event gets in [lastMsg.events]. *)
Definition next_index (st : state) : nat :=
  match lastMsg st with
  | Some m => length (default [] (events m))
  | None => 0
  end.

Section Reducer.
Context `{Host}.

(** [s + v] for a string [s]. *)
Definition string_plus (s : string) (v : option json) : option string :=
  match v with
  | None => Some (s +:+ "undefined")
  | Some (JStr t) => Some (s +:+ t)
  | Some j => t ← ToString j; Some (s +:+ t)
  end.

(** Lines 196-201: the [setAgentHistory] updater. *)
Definition push_agent (a : value) (prev : list value) : list value :=
  if negb (includes prev a) then prev ++ [a] else prev.

(** Lines 206-210: [lastMsg.content += data.content;
    lastMsg.agentsUsed.add(data.agent)]. *)
Definition add_text (data : json) (a : value) (m : message) : option message :=
  c ← string_plus (content m) (prop data "content");
  used ← agentsUsed m;
  Some {| role := role m; content := c; events := events m;
          agentsUsed := Some (Set_add used a) |}.

(** Lines 215-220: [lastMsg.events = [...(lastMsg.events || []), data];
    if (data.agent) lastMsg.agentsUsed.add(data.agent)]. *)
Definition add_event (data : json) (a : value) (m : message) : option message :=
  let evs := default [] (events m) ++ [data] in
  if truthy a then
    used ← agentsUsed m;
    Some {| role := role m; content := content m; events := Some evs;
            agentsUsed := Some (Set_add used a) |}
  else
    Some {| role := role m; content := content m; events := Some evs;
            agentsUsed := agentsUsed m |}.

(** Lines 251-363, for the values an event brings to the page: whether the
    render goes through.
    - [data.agent] is shown as the active agent (line 256) and in the
      timeline (line 272) after an [agent_start] or [agent_active] event, as
      a badge (line 325) once it is in agentsUsed, where every object and
      array gets by line 219 since it is truthy, and in the event item of an
      [agent_start] or [tool_call] event (lines 340, 347); a primitive is a
      valid child wherever it is shown.
    - [data.type] is printed into the class name of the event item
      (line 336).
    - [data.message] is a child of the item of an [agent_start] or
      [agent_complete] event (lines 341, 363), [data.tool] of the item of a
      [tool_call] or [tool_result] event (lines 348, 356).
    [JSON.stringify(event.args)] (line 349) does not throw on parsed JSON. *)
Definition renders (data : json) : bool :=
  child_ok data "agent"
  && match prop data "type" with
     | None | Some (JStr _) => true
     | Some j => bool_decide (is_Some (ToString j))
     end
  && (if type_is data "agent_start" || type_is data "agent_complete"
      then child_ok data "message" else true)
  && (if type_is data "tool_call" || type_is data "tool_result"
      then child_ok data "tool" else true).

(** Lines 194-222, for a parsed [data] that is not [null]: the state the
    updaters leave. *)
Definition update_event (data : json) (st : state) : option state :=
  let a := agent_of (next_index st) data in
  let st1 :=
    if type_is data "agent_start" || type_is data "agent_active"
    then set_agentHistory (push_agent a (agentHistory st)) (set_activeAgent a st)
    else st in
  ms2 ← (if type_is data "agent_text"
         then with_last (add_text data a) (messages st1)
         else Some (messages st1));
  ms3 ← with_last (add_event data a) ms2;
  Some (set_messages ms3 st1).

(** An event applied: the updaters run, then the page renders the state
    they leave. *)
Definition apply_event (data : json) (st : state) : option state :=
  st' ← update_event data st;
  if renders data then Some st' else None.

(** Lines 190-227: one iteration of [for (const line of lines)].  A payload
    that does not parse, and the payload [null] (whose [data.type] throws),
    end in the [catch] that only logs. *)
Definition process_line (line : string) (st : state) : option state :=
  if startsWith line "data: " then
    match JSON_parse (slice 6 line) with
    | None => Some st
    | Some JNull => Some st
    | Some data => apply_event data st
    end
  else Some st.

(** Lines 189-228. *)
Fixpoint process_lines (lines : list string) (st : state) : option state :=
  match lines with
  | [] => Some st
  | line :: rest => st' ← process_line line st; process_lines rest st'
  end.

(** Lines 182-229, over the chunks the reader delivers before it reports
    [done] or fails. *)
Fixpoint stream_loop (chunks : list string) (st : state) : option state :=
  match chunks with
  | [] => Some st
  | chunk :: rest =>
      st' ← process_lines (split newline chunk) st; stream_loop rest st'
  end.

(** How the response ends: the reader reports [done], or [fetch] or a
    [read] rejects with an error whose [message] prints as the string. *)
Inductive ending : Type :=
| Done
| Failed (message : string).

Record response : Type := Response {
  chunks : list string;
  outcome : ending
}.

(** Lines 152-170: the state once the two messages are appended. *)
Definition handleSubmit_begin (st : state) : state :=
  let userMessage :=
    {| role := "user"; content := query st; events := None; agentsUsed := None |} in
  let agentMessage :=
    {| role := "assistant"; content := ""; events := Some [];
       agentsUsed := Some [VStr "RootAgent"] |} in
  {| query := "";
     messages := (messages st ++ [userMessage]) ++ [agentMessage];
     loading := true;
     activeAgent := VStr "RootAgent";
     agentHistory := [VStr "RootAgent"] |}.

(** Lines 231-240, after the loop. *)
Definition handleSubmit_end (e : ending) (st : state) : option state :=
  st' ← match e with
        | Done => Some (set_activeAgent VNull st)
        | Failed msg =>
            ms ← with_last
                   (λ m, Some {| role := role m; content := "Error: " +:+ msg;
                                 events := events m; agentsUsed := agentsUsed m |})
                   (messages st);
            Some (set_messages ms st)
        end;
  Some (set_loading false st').

(** Line 150: [!query.trim() || loading]. *)
Definition rejected (st : state) : bool :=
  bool_decide (String_trim (query st) = "") || loading st.

(** Lines 148-241. *)
Definition handleSubmit (st : state) (r : response) : option state :=
  if rejected st then Some st
  else
    st1 ← stream_loop (chunks r) (handleSubmit_begin st);
    handleSubmit_end (outcome r) st1.

End Reducer.

End Chat.

(** ** What the updates amount to, in the words of the specification *)

(** The distinct elements of a list, each at the place of its first
    occurrence. *)
Fixpoint first_seen (l : list value) : list value :=
  match l with
  | [] => []
  | x :: l' => x :: filter (λ y, y ≠ x) (first_seen l')
  end.

(** The agents that the [agent_start] and [agent_active] events among
    [evs] name, where [evs] sit at the indices [i], [i + 1], ... of the
    message's events. *)
Fixpoint announced (i : nat) (evs : list json) : list value :=
  match evs with
  | [] => []
  | d :: evs' =>
      (if type_is d "agent_start" || type_is d "agent_active"
       then [agent_of i d] else [])
      ++ announced (S i) evs'
  end.

(** The agents the events add to [agentsUsed]: the agent of an
    [agent_text] event whatever it is, and the agent of any other event when
    it is truthy. *)
Fixpoint credited (i : nat) (evs : list json) : list value :=
  match evs with
  | [] => []
  | d :: evs' =>
      (if type_is d "agent_text" || truthy (agent_of i d)
       then [agent_of i d] else [])
      ++ credited (S i) evs'
  end.

(** The agent identifiers the events carry: every [agent] property that is
    present. *)
Fixpoint carried (i : nat) (evs : list json) : list value :=
  match evs with
  | [] => []
  | d :: evs' =>
      match prop d "agent" with
      | Some _ => [agent_of i d]
      | None => []
      end ++ carried (S i) evs'
  end.

(** The session is empty: no agent is active and no agent has been seen. *)
Definition session_empty (st : Chat.state) : Prop :=
  Chat.activeAgent st = VNull ∧ Chat.agentHistory st = [].

(** A chunk that ends where a line ends. *)
Definition line_aligned (chunk : string) : Prop :=
  ∃ body, chunk = body +:+ String newline EmptyString.

Section ChatSpec.
Context `{Host}.
Import Chat.

(** The event a line carries, if any: the parsed payload of a [data: ]
    line on which the body of the [try] runs to its end. *)
Definition event_of_line (line : string) : option json :=
  if startsWith line "data: " then
    match JSON_parse (slice 6 line) with
    | None | Some JNull => None
    | Some data => Some data
    end
  else None.

(** The events received on a sequence of lines, in receipt order. *)
Definition received (lines : list string) : list json := omap event_of_line lines.

(** The lines the loop iterates over, chunk after chunk. *)
Definition lines_of (chunks : list string) : list string :=
  concat (map (split newline) chunks).

(** The text an event appends to the message: the printed [content] of an
    [agent_text] event, nothing for another event. *)
Definition text_of (data : json) : string :=
  if type_is data "agent_text"
  then default "" (string_plus "" (prop data "content"))
  else "".

(** The state of a submission that has received the events [evs]: the last
    message holds them, and the two agent lists are the first occurrences
    among ['RootAgent'] and the agents of the events. *)
Definition streaming (evs : list json) (st : state) : Prop :=
  ∃ earlier m,
    messages st = earlier ++ [m]
    ∧ events m = Some evs
    ∧ agentsUsed m = Some (first_seen (VStr "RootAgent" :: credited 0 evs))
    ∧ content m = String.concat "" (map text_of evs)
    ∧ agentHistory st = first_seen (VStr "RootAgent" :: announced 0 evs).

(** An event whose text can be appended: [ToString] does not throw on the
    [content] of an [agent_text] event. *)
Definition printable (data : json) : Prop :=
  type_is data "agent_text" = true → is_Some (string_plus "" (prop data "content")).

(** An event the page survives: its text can be appended and its values
    can be rendered. *)
Definition presentable (data : json) : Prop :=
  printable data ∧ renders data = true.

End ChatSpec.

(** ** A host to run the pages on

    [JSON.parse], [ToString] and [trim] as ECMAScript defines them, on the
    byte strings of this embedding.  Two places are approximate and are used
    by no statement below: a number literal with a fraction or an exponent,
    or of magnitude 2^53 and more, keeps its own text where [JNum] asks for
    the canonical text of the double; a lone surrogate escape is written
    in the three-byte form of its code unit. *)

Module Browser.

Open Scope char_scope.

(** JSON white space. *)
Definition is_ws (c : ascii) : bool :=
  match c with
  | " " | "009" | "010" | "013" => true
  | _ => false
  end.

Fixpoint skip_ws (s : string) : string :=
  match s with
  | String c r => if is_ws c then skip_ws r else s
  | EmptyString => s
  end.

Definition is_digit (c : ascii) : bool :=
  let n := nat_of_ascii c in (48 <=? n)%nat && (n <=? 57)%nat.

(** The longest prefix of digits, and what follows it. *)
Fixpoint span_digits (s : string) : string * string :=
  match s with
  | String c r =>
      if is_digit c then let '(d, r') := span_digits r in (String c d, r')
      else (EmptyString, s)
  | EmptyString => (EmptyString, s)
  end.

Definition hex_value (c : ascii) : option N :=
  let n := N_of_ascii c in
  if (48 <=? n)%N && (n <=? 57)%N then Some (n - 48)%N
  else if (65 <=? n)%N && (n <=? 70)%N then Some (n - 55)%N
  else if (97 <=? n)%N && (n <=? 102)%N then Some (n - 87)%N
  else None.

(** One element of a string literal: a byte of the text as it stands, or
    the code unit of a [\u] escape. *)
Inductive unit16 : Type :=
| Raw (c : ascii)
| Esc (u : N).

Definition byte (n : N) : ascii := ascii_of_N n.

(** The UTF-8 bytes of a code point. *)
Definition utf8 (u : N) : string :=
  if (u <? 128)%N then String (byte u) EmptyString
  else if (u <? 2048)%N then
    String (byte (192 + u / 64)) (String (byte (128 + u mod 64)) EmptyString)
  else if (u <? 65536)%N then
    String (byte (224 + u / 4096))
      (String (byte (128 + (u / 64) mod 64))
         (String (byte (128 + u mod 64)) EmptyString))
  else
    String (byte (240 + u / 262144))
      (String (byte (128 + (u / 4096) mod 64))
         (String (byte (128 + (u / 64) mod 64))
            (String (byte (128 + u mod 64)) EmptyString))).

Definition is_high (u : N) : bool := (55296 <=? u)%N && (u <=? 56319)%N.
Definition is_low (u : N) : bool := (56320 <=? u)%N && (u <=? 57343)%N.

(** The text of a string literal, a surrogate pair giving one code
    point. *)
Fixpoint encode (us : list unit16) : string :=
  match us with
  | [] => EmptyString
  | Raw c :: rest => String c (encode rest)
  | Esc h :: rest =>
      match rest with
      | Esc l :: rest' =>
          if is_high h && is_low l
          then utf8 (65536 + (h - 55296) * 1024 + (l - 56320)) +:+ encode rest'
          else utf8 h +:+ encode rest
      | _ => utf8 h +:+ encode rest
      end
  end.

(** The elements of a string literal whose opening quote is consumed, and
    what follows the closing quote. *)
Fixpoint string_units (s : string) : option (list unit16 * string) :=
  match s with
  | EmptyString => None
  | String "034" r => Some ([], r)
  | String "\" (String e r) =>
      let simple (c : ascii) :=
        '(us, r') ← string_units r; Some (Raw c :: us, r') in
      match e with
      | "034" => simple "034"
      | "\" => simple "\"
      | "/" => simple "/"
      | "b" => simple "008"
      | "f" => simple "012"
      | "n" => simple "010"
      | "r" => simple "013"
      | "t" => simple "009"
      | "u" =>
          match r with
          | String a (String b (String c (String d r4))) =>
              ha ← hex_value a; hb ← hex_value b;
              hc ← hex_value c; hd ← hex_value d;
              '(us, r') ← string_units r4;
              Some (Esc (ha * 4096 + hb * 256 + hc * 16 + hd) :: us, r')
          | _ => None
          end
      | _ => None
      end
  | String "\" EmptyString => None
  | String c r =>
      if (nat_of_ascii c <? 32)%nat then None
      else '(us, r') ← string_units r; Some (Raw c :: us, r')
  end.

Definition parse_string (s : string) : option (string * string) :=
  '(us, r) ← string_units s; Some (encode us, r).

(** A literal word such as [null], whose first letter is consumed. *)
Fixpoint expect (w s : string) : option string :=
  match w, s with
  | EmptyString, _ => Some s
  | String a w', String b s' => if decide (a = b) then expect w' s' else None
  | String _ _, EmptyString => None
  end.

(** A number literal: its text for [JNum] and what follows it. *)
Definition parse_number (s : string) : option (string * string) :=
  let '(sign, s1) :=
    match s with
    | String "-" r => ("-"%string, r)
    | _ => (EmptyString, s)
    end in
  let '(int, s2) := span_digits s1 in
  match int with
  | EmptyString => None
  | String "0" (String _ _) => None
  | _ =>
      frac ← match s2 with
             | String "." r =>
                 let '(ds, r') := span_digits r in
                 match ds with
                 | EmptyString => None
                 | _ => Some ("." +:+ ds, r')
                 end
             | _ => Some (EmptyString, s2)
             end;
      let '(fr, s3) := frac in
      ex ← match s3 with
           | String e r =>
               if bool_decide (e = "e") || bool_decide (e = "E") then
                 let '(sg, r1) :=
                   match r with
                   | String "+" r' => ("+"%string, r')
                   | String "-" r' => ("-"%string, r')
                   | _ => (EmptyString, r)
                   end in
                 let '(ds, r2) := span_digits r1 in
                 match ds with
                 | EmptyString => None
                 | _ => Some (String e sg +:+ ds, r2)
                 end
               else Some (EmptyString, s3)
           | EmptyString => Some (EmptyString, s3)
           end;
      let '(exn, s4) := ex in
      let text :=
        if bool_decide (fr = EmptyString) && bool_decide (exn = EmptyString)
           && bool_decide (int = "0"%string)
        then "0"%string
        else sign +:+ int +:+ fr +:+ exn in
      Some (text, s4)
  end.

(** [CreateDataProperty]: a repeated key keeps its place and takes the new
    value. *)
Fixpoint define_property (k : string) (v : json) (ps : list (string * json))
  : list (string * json) :=
  match ps with
  | [] => [(k, v)]
  | (k', v') :: ps' =>
      if decide (k = k') then (k, v) :: ps'
      else (k', v') :: define_property k v ps'
  end.

(** A JSON value at the head of [s], after white space.  The fuel bounds
    the depth of the calls; a call consumes a character before it calls
    again, and [parse] below gives twice the length of the text. *)
Fixpoint parse_value (fuel : nat) (s : string) : option (json * string) :=
  match fuel with
  | O => None
  | S fuel' =>
      match skip_ws s with
      | String "n" r => r' ← expect "ull" r; Some (JNull, r')
      | String "t" r => r' ← expect "rue" r; Some (JBool true, r')
      | String "f" r => r' ← expect "alse" r; Some (JBool false, r')
      | String "034" r => '(t, r') ← parse_string r; Some (JStr t, r')
      | String "[" r =>
          match skip_ws r with
          | String "]" r' => Some (JArr [], r')
          | _ => '(xs, r') ← parse_elements fuel' [] r; Some (JArr xs, r')
          end
      | String "{" r =>
          match skip_ws r with
          | String "}" r' => Some (JObj [], r')
          | _ => '(ps, r') ← parse_members fuel' [] r; Some (JObj ps, r')
          end
      | String c r =>
          if is_digit c || bool_decide (c = "-") then
            '(t, r') ← parse_number (String c r); Some (JNum t, r')
          else None
      | EmptyString => None
      end
  end
with parse_elements (fuel : nat) (acc : list json) (s : string)
  : option (list json * string) :=
  match fuel with
  | O => None
  | S fuel' =>
      '(v, r) ← parse_value fuel' s;
      match skip_ws r with
      | String "," r' => parse_elements fuel' (acc ++ [v]) r'
      | String "]" r' => Some (acc ++ [v], r')
      | _ => None
      end
  end
with parse_members (fuel : nat) (acc : list (string * json)) (s : string)
  : option (list (string * json) * string) :=
  match fuel with
  | O => None
  | S fuel' =>
      match skip_ws s with
      | String "034" r =>
          '(k, r1) ← parse_string r;
          match skip_ws r1 with
          | String ":" r2 =>
              '(v, r3) ← parse_value fuel' r2;
              let acc' := define_property k v acc in
              match skip_ws r3 with
              | String "," r4 => parse_members fuel' acc' r4
              | String "}" r4 => Some (acc', r4)
              | _ => None
              end
          | _ => None
          end
      | _ => None
      end
  end.

Close Scope char_scope.

(** [JSON.parse(text)]. *)
Definition parse (text : string) : option json :=
  '(v, r) ← parse_value (2 * String.length text + 2) text;
  match skip_ws r with
  | EmptyString => Some v
  | _ => None
  end.

(** [ToString]: a primitive prints as itself; an array joins its elements
    with commas, [null] printing as nothing there; an object prints as
    [[object Object]] unless an own [toString] property, which is never a
    function, hides the inherited one. *)
Fixpoint to_string (j : json) : option string :=
  match j with
  | JNull => Some "null"
  | JBool true => Some "true"
  | JBool false => Some "false"
  | JNum r => Some r
  | JStr s => Some s
  | JArr xs =>
      (fix join (xs : list json) : option string :=
         match xs with
         | [] => Some ""
         | x :: rest =>
             a ← match x with JNull => Some "" | _ => to_string x end;
             match rest with
             | [] => Some a
             | _ => b ← join rest; Some (a +:+ "," +:+ b)
             end
         end) xs
  | JObj ps =>
      match own_property "toString" ps with
      | Some _ => None
      | None => Some "[object Object]"
      end
  end.

Open Scope char_scope.

(** [trimStart]: the white space and line terminators of ECMAScript, in
    UTF-8. *)
Fixpoint trimStart (s : string) : string :=
  match s with
  | String "009" r | String "010" r | String "011" r | String "012" r
  | String "013" r | String " " r => trimStart r
  | String "194" (String "160" r) => trimStart r
  | String "225" (String "154" (String "128" r)) => trimStart r
  | String "226" (String "128" (String c r)) =>
      let n := nat_of_ascii c in
      if ((128 <=? n) && (n <=? 138))%nat || bool_decide (n = 168%nat)
         || bool_decide (n = 169%nat) || bool_decide (n = 175%nat)
      then trimStart r else s
  | String "226" (String "129" (String "159" r)) => trimStart r
  | String "227" (String "128" (String "128" r)) => trimStart r
  | String "239" (String "187" (String "191" r)) => trimStart r
  | _ => s
  end.

Close Scope char_scope.

Fixpoint trimEnd (s : string) : string :=
  match s with
  | EmptyString => EmptyString
  | String c r =>
      if bool_decide (trimStart s = EmptyString) then EmptyString
      else String c (trimEnd r)
  end.

Definition trim (s : string) : string := trimEnd (trimStart s).

#[export] Instance host : Host :=
  {| JSON_parse := parse; ToString := to_string; String_trim := trim |}.

End Browser.

(** Test vectors are written with single quotes where the wire has double
    quotes. *)
Definition wire (s : string) : string :=
  (fix go (s : string) : string :=
     match s with
     | EmptyString => EmptyString
     | String c r =>
         String (if decide (c = ascii_of_nat 39) then ascii_of_nat 34 else c) (go r)
     end) s.

(** ** Streams to run the chat page on *)

Module Demo.
Import Chat.

(** The page after the user typed a question. *)
Definition asked : state := set_query "Does this request comply?" initial.

Definition nl : string := String newline EmptyString.

Definition root_start : string :=
  wire "data: {'type':'agent_start','agent':'RootAgent'}".
Definition rag_active : string :=
  wire "data: {'type':'agent_active','agent':'RAGAgent'}".
Definition rag_yes : string :=
  wire "data: {'type':'agent_text','agent':'RAGAgent','content':'Yes'}".
Definition rag_complies : string :=
  wire "data: {'type':'agent_text','agent':'RAGAgent','content':', it complies.'}".
Definition rag_sentence : string :=
  wire "data: {'type':'agent_text','agent':'RAGAgent','content':'Yes, it complies.'}".
Definition anonymous_text : string :=
  wire "data: {'type':'agent_text','content':'Checking'}".
Definition anonymous_tool : string :=
  wire "data: {'type':'tool_call','tool':'search'}".
Definition truncated : string :=
  wire "data: {'type':'agent_text','agent':'RAGAgent','content':'Yes".

(** The scenario of the specification, one event per chunk. *)
Definition scenario : list string :=
  [root_start +:+ nl +:+ nl; rag_yes +:+ nl +:+ nl; rag_complies +:+ nl +:+ nl].

(** One event, delivered whole. *)
Definition whole : list string := [rag_sentence +:+ nl +:+ nl].

(** The same bytes, delivered in two chunks that meet inside the line. *)
Definition halves : list string :=
  [wire "data: {'type':'agent_text','agent':'RAGAgent','content':'Yes";
   wire ", it complies.'}" +:+ nl +:+ nl].

(** The page when the scenario has ended with the reader reporting done. *)
Definition after_scenario : state :=
  {| query := "";
     messages :=
       [{| role := "user"; content := "Does this request comply?";
           events := None; agentsUsed := None |};
        {| role := "assistant"; content := "Yes, it complies.";
           events :=
             Some [JObj [("type", JStr "agent_start"); ("agent", JStr "RootAgent")];
                   JObj [("type", JStr "agent_text"); ("agent", JStr "RAGAgent");
                         ("content", JStr "Yes")];
                   JObj [("type", JStr "agent_text"); ("agent", JStr "RAGAgent");
                         ("content", JStr ", it complies.")]];
           agentsUsed := Some [VStr "RootAgent"; VStr "RAGAgent"] |}];
     loading := false;
     activeAgent := VNull;
     agentHistory := [VStr "RootAgent"] |}.

(** The page when the stream loop has consumed the scenario and the
    handler has not left the loop yet. *)
Definition streamed_scenario : state :=
  set_loading true (set_activeAgent (VStr "RootAgent") after_scenario).

(** The event of [anonymous_text]. *)
Definition anonymous_text_event : json :=
  JObj [("type", JStr "agent_text"); ("content", JStr "Checking")].

End Demo.

(** ** What the pages show *)

(** [ToBoolean] of a parsed value. *)
Definition json_truthy (j : json) : bool :=
  match j with
  | JNull => false
  | JBool b => b
  | JNum r => negb (bool_decide (r = "0") || bool_decide (r = "NaN"))
  | JStr s => negb (bool_decide (s = ""))
  | JArr _ | JObj _ => true
  end.

Module UploadView.
Import Upload.

(** Line 62: [files.length > 0 && (...)], the list of selected files. *)
Definition file_list_visible (st : state) : bool := (0 <? length (files st))%nat.

(** Line 81: [result && (...)], the result banner. *)
Definition banner_visible (st : state) : bool := json_truthy (result st).

(** Line 83: [result.status === 'success'] chooses the heading of the
    banner; [status] is not inherited from a prototype. *)
Definition banner_is_success (st : state) : bool :=
  match prop (result st) "status" with
  | Some (JStr s) => bool_decide (s = "success")
  | _ => false
  end.

(** Line 84: [result.message], the text of the banner. *)
Definition banner_message (st : state) : option json := prop (result st) "message".

End UploadView.

Module ChatView.
Import Chat.

(** Line 251: [activeAgent && (...)], the active-agent indicator. *)
Definition indicator_visible (st : state) : bool := truthy (activeAgent st).

(** Line 263: [agentHistory.length > 0 && loading], the execution-flow
    timeline. *)
Definition timeline_visible (st : state) : bool :=
  (0 <? length (agentHistory st))%nat && loading st.

(** Line 280: [messages.length === 0], the welcome panel. *)
Definition welcome_visible (st : state) : bool := (length (messages st) =? 0)%nat.

(** Lines 316-319: the badges of a message,
    [Array.from(msg.agentsUsed)] when the set exists and is not empty. *)
Definition badges (m : message) : list value := default [] (agentsUsed m).

(** Lines 331-333: the number in the summary of the event list, for a message
    whose [events] exist and are not empty. *)
Definition event_summary (m : message) : option nat :=
  match events m with
  | Some (e :: evs) => Some (length (e :: evs))
  | _ => None
  end.

(** Line 382: [onChange={(e) => setQuery(e.target.value)}]. *)
Definition onChange (text : string) (st : state) : state := set_query text st.

(** Line 384: [disabled={loading}] on the text area. *)
Definition input_disabled (st : state) : bool := loading st.

Section Send.
Context `{Host}.

(** Line 387: [disabled={loading || !query.trim()}] on the send button. *)
Definition send_disabled (st : state) : bool :=
  loading st || bool_decide (String_trim (query st) = "").

End Send.

End ChatView.

(** ** Streams of well-formed events *)

(** The text fragment of an [agent_text] event whose [content] is a
    string. *)
Definition fragment (data : json) : option string :=
  if type_is data "agent_text" then
    match prop data "content" with
    | Some (JStr t) => Some t
    | _ => None
    end
  else None.

(** The text fragments of the events, in receipt order. *)
Definition fragments (evs : list json) : list string := omap fragment evs.

(** Every [agent_text] event carries a string as its [content]. *)
Definition text_is_string (data : json) : Prop :=
  type_is data "agent_text" = true → ∃ t, prop data "content" = Some (JStr t).

(** More streams to run the chat page on. *)
Module Samples.
Import Chat Demo.

(** An [agent_text] event without [content]. *)
Definition silent_text : string :=
  wire "data: {'type':'agent_text','agent':'RAGAgent'}".
Definition silent_text_event : json :=
  JObj [("type", JStr "agent_text"); ("agent", JStr "RAGAgent")].

(** An [agent_text] event without an agent, whose [content] is an object
    that hides the inherited [toString]. *)
Definition shadowed_text : string :=
  wire "data: {'type':'agent_text','content':{'toString':1}}".
Definition shadowed_text_event : json :=
  JObj [("type", JStr "agent_text"); ("content", JObj [("toString", JNum "1")])].

(** An [agent_start] event whose agent is an object. *)
Definition object_agent : string :=
  wire "data: {'type':'agent_start','agent':{'id':1}}".

(** A payload that is valid JSON and no object. *)
Definition bare_number : string := "data: 42".

(** The payload [null]. *)
Definition null_payload : string := "data: null".

(** The scenario in one chunk. *)
Definition scenario_in_one_chunk : list string :=
  [root_start +:+ nl +:+ nl +:+ rag_yes +:+ nl +:+ nl +:+ rag_complies +:+ nl +:+ nl].

(** The page when the first event of the scenario is consumed. *)
Definition streamed_first : state :=
  {| query := "";
     messages :=
       [{| role := "user"; content := "Does this request comply?";
           events := None; agentsUsed := None |};
        {| role := "assistant"; content := "";
           events :=
             Some [JObj [("type", JStr "agent_start"); ("agent", JStr "RootAgent")]];
           agentsUsed := Some [VStr "RootAgent"] |}];
     loading := true;
     activeAgent := VStr "RootAgent";
     agentHistory := [VStr "RootAgent"] |}.

(** Two files picked on the upload page. *)
Definition picked : Upload.state :=
  {| Upload.files := [{| Upload.name := "policy.pdf"; Upload.size := 2048 |};
                      {| Upload.name := "rider.docx"; Upload.size := 512 |}];
     Upload.uploading := false;
     Upload.result := JNull |}.

End Samples.

(** ** Lists of first occurrences *)

Section FirstSeen.

Lemma elem_of_first_seen (l : list value) (a : value) :
  a ∈ first_seen l ↔ a ∈ l.
Proof.
  induction l as [|x l IH]; simpl; [done|].
  rewrite !elem_of_cons, list_elem_of_filter, IH.
  destruct (decide (a = x)); naive_solver.
Qed.

Lemma NoDup_first_seen (l : list value) : NoDup (first_seen l).
Proof.
  induction l as [|x l IH]; simpl; [constructor|].
  apply NoDup_cons. split.
  - rewrite list_elem_of_filter. naive_solver.
  - by apply NoDup_filter.
Qed.

Lemma first_seen_snoc (l : list value) (a : value) :
  first_seen (l ++ [a]) =
  if decide (a ∈ l) then first_seen l else first_seen l ++ [a].
Proof.
  induction l as [|x l IH]; cbn [first_seen app].
  - rewrite decide_False; [done | apply not_elem_of_nil].
  - rewrite IH. destruct (decide (a ∈ l)) as [Hin|Hnin].
    + rewrite decide_True; [done | by apply elem_of_cons; right].
    + rewrite filter_app, filter_cons, filter_nil.
      destruct (decide (a = x)) as [->|Hne].
      * rewrite decide_False by naive_solver.
        rewrite decide_True by (apply elem_of_cons; by left).
        by rewrite app_nil_r.
      * rewrite decide_True by done.
        rewrite decide_False; [done|].
        rewrite elem_of_cons. naive_solver.
Qed.

(** [Set.add] and the history updater both keep a list of first
    occurrences. *)
Lemma Set_add_first_seen (l : list value) (a : value) :
  Set_add (first_seen l) a = first_seen (l ++ [a]).
Proof.
  unfold Set_add, includes. rewrite first_seen_snoc.
  case_bool_decide as Hin; rewrite elem_of_first_seen in Hin.
  - by rewrite decide_True.
  - by rewrite decide_False.
Qed.

Lemma Set_add_idemp (s : list value) (a : value) :
  Set_add (Set_add s a) a = Set_add s a.
Proof.
  unfold Set_add, includes.
  destruct (decide (a ∈ s)) as [Hin|Hnin].
  - by rewrite !(bool_decide_eq_true_2 _ Hin).
  - rewrite (bool_decide_eq_false_2 _ Hnin).
    rewrite bool_decide_eq_true_2; [done|].
    apply elem_of_app. right. by apply elem_of_cons; left.
Qed.

Lemma announced_snoc (i : nat) (evs : list json) (d : json) :
  announced i (evs ++ [d]) =
  announced i evs ++
    (if type_is d "agent_start" || type_is d "agent_active"
     then [agent_of (i + length evs) d] else []).
Proof.
  revert i. induction evs as [|e evs IH]; intros i; simpl.
  - by rewrite Nat.add_0_r, !app_nil_r.
  - rewrite IH, <- app_assoc.
    replace (S i + length evs) with (i + S (length evs)) by lia. done.
Qed.

Lemma credited_snoc (i : nat) (evs : list json) (d : json) :
  credited i (evs ++ [d]) =
  credited i evs ++
    (if type_is d "agent_text" || truthy (agent_of (i + length evs) d)
     then [agent_of (i + length evs) d] else []).
Proof.
  revert i. induction evs as [|e evs IH]; intros i; simpl.
  - by rewrite Nat.add_0_r, !app_nil_r.
  - rewrite IH, <- app_assoc.
    replace (S i + length evs) with (i + S (length evs)) by lia. done.
Qed.

End FirstSeen.

(** ** The stream loop *)

Section ChatTheory.
Context `{Host}.
Import Chat.

#[local] Arguments first_seen : simpl never.

Lemma with_last_snoc (f : message → option message) (ms : list message) (m : message) :
  with_last f (ms ++ [m]) = m' ← f m; Some (ms ++ [m']).
Proof.
  induction ms as [|a ms IH]; [done|].
  change ((a :: ms) ++ [m]) with (a :: (ms ++ [m])).
  assert (with_last f (a :: (ms ++ [m])) =
          rest' ← with_last f (ms ++ [m]); Some (a :: rest')) as ->.
  { destruct ms; done. }
  rewrite IH. by destruct (f m).
Qed.

Lemma lastMsg_snoc (st : state) (ms : list message) (m : message) :
  messages st = ms ++ [m] → lastMsg st = Some m.
Proof. unfold lastMsg. intros ->. apply last_snoc. Qed.

Lemma process_line_event (line : string) (st : state) :
  process_line line st =
  match event_of_line line with
  | Some data => apply_event data st
  | None => Some st
  end.
Proof.
  unfold process_line, event_of_line.
  destruct (startsWith line "data: "); [|done].
  destruct (JSON_parse (slice 6 line)) as [[]|]; done.
Qed.

Lemma process_lines_app (l1 l2 : list string) (st : state) :
  process_lines (l1 ++ l2) st = st' ← process_lines l1 st; process_lines l2 st'.
Proof.
  revert st. induction l1 as [|l l1 IH]; intros st; simpl; [done|].
  destruct (process_line l st); simpl; [apply IH | done].
Qed.

Lemma stream_loop_lines (cs : list string) (st : state) :
  stream_loop cs st = process_lines (lines_of cs) st.
Proof.
  revert st. induction cs as [|c cs IH]; intros st; [done|].
  unfold lines_of. simpl. rewrite process_lines_app.
  destruct (process_lines (split newline c) st); simpl; [apply IH | done].
Qed.

Lemma string_plus_text (s : string) (v : option json) (c : string) :
  string_plus s v = Some c → c = s +:+ default "" (string_plus "" v).
Proof.
  destruct v as [[]|]; simpl; intros Hc; simplify_option_eq; done.
Qed.

Lemma string_append_assoc (a b c : string) : (a +:+ b) +:+ c = a +:+ (b +:+ c).
Proof.
  induction a as [|x a IH]; [done|].
  change (String x ((a +:+ b) +:+ c) = String x (a +:+ (b +:+ c))).
  by rewrite IH.
Qed.

Lemma string_append_empty_r (a : string) : a +:+ "" = a.
Proof.
  induction a as [|x a IH]; [done|].
  change (String x (a +:+ "") = String x a). by rewrite IH.
Qed.

Lemma concat_texts_snoc (l : list string) (t : string) :
  String.concat "" (l ++ [t]) = String.concat "" l +:+ t.
Proof.
  induction l as [|a l IH]; [done|].
  destruct l as [|b l].
  - done.
  - change (a +:+ "" +:+ String.concat "" ((b :: l) ++ [t]) =
            (a +:+ "" +:+ String.concat "" (b :: l)) +:+ t).
    rewrite IH. by rewrite !string_append_assoc.
Qed.

Lemma push_agent_Set_add (a : value) (prev : list value) :
  push_agent a prev = Set_add prev a.
Proof. unfold push_agent, Set_add. by destruct (includes prev a). Qed.

Lemma streaming_begin (st : state) : streaming [] (handleSubmit_begin st).
Proof.
  eexists _, _. split; [reflexivity|]. by repeat split.
Qed.

Lemma streaming_next_index (evs : list json) (st : state) :
  streaming evs st → next_index st = length evs.
Proof.
  intros (earlier & m & Hms & Hev & _). unfold next_index.
  by rewrite (lastMsg_snoc _ _ _ Hms), Hev.
Qed.

(** An applied event is one whose updaters ran and whose values render. *)
Lemma apply_event_Some (data : json) (st st' : state) :
  apply_event data st = Some st' ↔
  update_event data st = Some st' ∧ renders data = true.
Proof.
  unfold apply_event. destruct (update_event data st) as [st1|]; simpl.
  - destruct (renders data); naive_solver.
  - naive_solver.
Qed.

(** The updaters of one event take a streaming state to a streaming
    state. *)
Lemma update_event_streaming (evs : list json) (data : json) (st st' : state) :
  streaming evs st → update_event data st = Some st' →
  streaming (evs ++ [data]) st'.
Proof.
  intros Hst Hap. pose proof (streaming_next_index _ _ Hst) as Hidx.
  destruct Hst as (earlier & m & Hms & Hev & Hused & Hc & Hh).
  unfold update_event in Hap. rewrite Hidx in Hap.
  set (a := agent_of (length evs) data) in *.
  assert (Hhist : agentHistory
            (if type_is data "agent_start" || type_is data "agent_active"
             then set_agentHistory (push_agent a (agentHistory st)) (set_activeAgent a st)
             else st)
          = first_seen (VStr "RootAgent" :: announced 0 (evs ++ [data]))).
  { rewrite announced_snoc, app_comm_cons. fold a.
    destruct (type_is data "agent_start" || type_is data "agent_active"); simpl.
    - by rewrite push_agent_Set_add, Hh, Set_add_first_seen.
    - by rewrite app_nil_r. }
  assert (Hmsgs : messages
            (if type_is data "agent_start" || type_is data "agent_active"
             then set_agentHistory (push_agent a (agentHistory st)) (set_activeAgent a st)
             else st) = earlier ++ [m]).
  { by destruct (type_is data "agent_start" || type_is data "agent_active"). }
  rewrite Hmsgs in Hap.
  assert (Hcred : VStr "RootAgent" :: credited 0 (evs ++ [data]) =
            (VStr "RootAgent" :: credited 0 evs) ++
            (if type_is data "agent_text" || truthy a then [a] else [])).
  { by rewrite credited_snoc, app_comm_cons. }
  assert (Htxt : String.concat "" (map text_of (evs ++ [data])) =
                 content m +:+ text_of data).
  { rewrite map_app. cbn [map]. by rewrite concat_texts_snoc, Hc. }
  assert (Htd : text_of data =
            if type_is data "agent_text"
            then default "" (string_plus "" (prop data "content")) else "")
    by reflexivity.
  destruct (type_is data "agent_text") eqn:Htext; simpl in Hap, Hcred;
    rewrite Htd in Htxt.
  - rewrite with_last_snoc in Hap. unfold add_text in Hap. rewrite Hused in Hap.
    destruct (string_plus (content m) (prop data "content")) as [c|] eqn:Hplus;
      simpl in Hap; [|done].
    apply string_plus_text in Hplus.
    rewrite with_last_snoc in Hap. unfold add_event in Hap. simpl in Hap.
    rewrite Hev in Hap. simpl in Hap.
    destruct (truthy a); simpl in Hap; simplify_eq;
      eexists earlier, _; (split; [reflexivity|]); simpl;
      rewrite Hcred, ?Set_add_idemp, Set_add_first_seen, Htxt, Hhist; done.
  - rewrite with_last_snoc in Hap. unfold add_event in Hap.
    rewrite Hev, Hused in Hap. simpl in Hap.
    rewrite string_append_empty_r in Htxt.
    destruct (truthy a); simpl in Hap; simplify_eq;
      eexists earlier, _; (split; [reflexivity|]); simpl;
      rewrite Hcred, ?Set_add_first_seen, ?app_nil_r, Htxt, Hhist; done.
Qed.

(** One event takes a streaming state to a streaming state. *)
Lemma apply_event_streaming (evs : list json) (data : json) (st st' : state) :
  streaming evs st → apply_event data st = Some st' →
  streaming (evs ++ [data]) st'.
Proof.
  intros Hst [Hup _]%apply_event_Some. by eapply update_event_streaming.
Qed.

Lemma received_cons (l : string) (ls : list string) :
  received (l :: ls) =
  match event_of_line l with
  | Some d => d :: received ls
  | None => received ls
  end.
Proof. reflexivity. Qed.

Lemma received_app (l1 l2 : list string) :
  received (l1 ++ l2) = received l1 ++ received l2.
Proof.
  induction l1 as [|l l1 IH]; [done|].
  change ((l :: l1) ++ l2) with (l :: (l1 ++ l2)).
  rewrite !received_cons, IH. by destruct (event_of_line l).
Qed.

Lemma process_lines_streaming (evs : list json) (ls : list string) (st st' : state) :
  streaming evs st → process_lines ls st = Some st' →
  streaming (evs ++ received ls) st'.
Proof.
  revert evs st. induction ls as [|l ls IH]; intros evs st Hst Hrun.
  - simpl in Hrun. simplify_eq. change (received []) with (@nil json).
    by rewrite app_nil_r.
  - simpl in Hrun. rewrite process_line_event in Hrun.
    rewrite received_cons.
    destruct (event_of_line l) as [d|].
    + destruct (apply_event d st) as [st1|] eqn:Hap; simpl in Hrun; [|done].
      replace (evs ++ d :: received ls) with ((evs ++ [d]) ++ received ls)
        by (by rewrite <- app_assoc).
      eapply IH; [|done]. by eapply apply_event_streaming.
    + simpl in Hrun. by eapply IH.
Qed.

(** An event whose text can be printed. *)
Lemma string_plus_is_Some (s : string) (v : option json) :
  is_Some (string_plus "" v) → is_Some (string_plus s v).
Proof.
  destruct v as [[]|]; simpl; intros [t Ht]; simplify_option_eq; eauto.
Qed.

(** In a streaming state the updaters of an event with printable text run
    without an exception. *)
Lemma update_event_total (evs : list json) (data : json) (st : state) :
  streaming evs st → printable data → is_Some (update_event data st).
Proof.
  intros (earlier & m & Hms & Hev & Hused & Hc & Hh) Hp.
  unfold update_event.
  set (a := agent_of (next_index st) data).
  assert (Hmsgs : messages
            (if type_is data "agent_start" || type_is data "agent_active"
             then set_agentHistory (push_agent a (agentHistory st)) (set_activeAgent a st)
             else st) = earlier ++ [m]).
  { by destruct (type_is data "agent_start" || type_is data "agent_active"). }
  rewrite Hmsgs. unfold printable in Hp.
  destruct (type_is data "agent_text").
  - destruct (string_plus_is_Some (content m) _ (Hp eq_refl)) as [c Hc'].
    rewrite with_last_snoc. unfold add_text. rewrite Hc', Hused. simpl.
    rewrite with_last_snoc. unfold add_event. simpl.
    destruct (truthy a); simpl; eauto.
  - simpl. rewrite with_last_snoc. unfold add_event. rewrite Hused.
    destruct (truthy a); simpl; eauto.
Qed.

(** In a streaming state an event that is presentable is applied without
    an exception. *)
Lemma apply_event_total (evs : list json) (data : json) (st : state) :
  streaming evs st → presentable data → is_Some (apply_event data st).
Proof.
  intros Hst [Hp Hr].
  destruct (update_event_total _ _ _ Hst Hp) as [st' Hup].
  exists st'. by apply apply_event_Some.
Qed.

Lemma process_lines_total (evs : list json) (ls : list string) (st : state) :
  streaming evs st → Forall presentable (received ls) →
  is_Some (process_lines ls st).
Proof.
  revert evs st. induction ls as [|l ls IH]; intros evs st Hst Hp; simpl; [eauto|].
  rewrite process_line_event. rewrite received_cons in Hp.
  destruct (event_of_line l) as [d|]; simpl.
  - apply Forall_cons in Hp as [Hd Hp].
    destruct (apply_event_total _ _ _ Hst Hd) as [st1 Hap]. rewrite Hap. simpl.
    eapply IH; [|done]. by eapply apply_event_streaming.
  - by eapply IH.
Qed.

Lemma handleSubmit_end_total (evs : list json) (e : ending) (st : state) :
  streaming evs st → is_Some (handleSubmit_end e st).
Proof.
  intros (earlier & m & Hms & _). unfold handleSubmit_end.
  destruct e as [|msg]; simpl; [eauto|].
  rewrite Hms, with_last_snoc. simpl. eauto.
Qed.

(** A submission whose events are all presentable runs to its end: no
    updater and no render throws. *)
Lemma handleSubmit_total (st : state) (r : response) :
  Forall presentable (received (lines_of (chunks r))) →
  is_Some (handleSubmit st r).
Proof.
  intros Hp. unfold handleSubmit. destruct (rejected st); [eauto|].
  rewrite stream_loop_lines.
  destruct (process_lines_total [] _ _ (streaming_begin st) Hp) as [st1 Hrun].
  rewrite Hrun. simpl.
  eapply handleSubmit_end_total.
  eapply (process_lines_streaming [] _ _ _ (streaming_begin st) Hrun).
Qed.

Lemma elem_of_credited (a : value) (i : nat) (evs : list json) :
  a ∈ credited i evs ↔
  ∃ k d, evs !! k = Some d ∧ a = agent_of (i + k) d
         ∧ (type_is d "agent_text" = true ∨ truthy a = true).
Proof.
  revert i. induction evs as [|e evs IH]; intros i; simpl.
  - split; [by intros ?%elem_of_nil | by intros (k & d & ? & _)].
  - rewrite elem_of_app, IH. split.
    + intros [Hin | (k & d & Hk & -> & Hor)].
      * destruct (type_is e "agent_text" || truthy (agent_of i e)) eqn:Hb;
          [|by apply elem_of_nil in Hin].
        apply list_elem_of_singleton in Hin as ->.
        exists 0, e. rewrite Nat.add_0_r. split_and!; [done..|].
        apply orb_true_iff in Hb. done.
      * exists (S k), d. replace (i + S k) with (S i + k) by lia. done.
    + intros (k & d & Hk & -> & Hor). destruct k as [|k]; simpl in Hk.
      * simplify_eq. left. rewrite Nat.add_0_r in *.
        rewrite (proj2 (orb_true_iff _ _) Hor). by apply list_elem_of_singleton.
      * right. exists k, d. replace (S i + k) with (i + S k) by lia. done.
Qed.

Lemma lastMsg_set_loading (b : bool) (st : state) :
  lastMsg (set_loading b st) = lastMsg st.
Proof. reflexivity. Qed.

(** What the end of the submission does to a state whose last message is
    [m]: the reader's [done] clears the active agent, an error replaces the
    text of [m]; both clear [loading]. *)
Lemma handleSubmit_end_spec (e : ending) (st : state) (earlier : list message) (m : message) :
  messages st = earlier ++ [m] →
  handleSubmit_end e st =
  Some match e with
       | Done => set_loading false (set_activeAgent VNull st)
       | Failed msg =>
           set_loading false
             (set_messages
                (earlier ++ [{| role := role m; content := "Error: " +:+ msg;
                               events := events m; agentsUsed := agentsUsed m |}])
                st)
       end.
Proof.
  intros Hms. unfold handleSubmit_end. destruct e as [|msg]; simpl; [done|].
  by rewrite Hms, with_last_snoc.
Qed.

(** A submission that is not rejected and does not crash went through a
    streaming state. *)
Lemma handleSubmit_inv (st0 : state) (r : response) (st : state) :
  rejected st0 = false → handleSubmit st0 r = Some st →
  ∃ st1, stream_loop (chunks r) (handleSubmit_begin st0) = Some st1
         ∧ streaming (received (lines_of (chunks r))) st1
         ∧ handleSubmit_end (outcome r) st1 = Some st.
Proof.
  intros Hrej Hrun. unfold handleSubmit in Hrun. rewrite Hrej in Hrun.
  destruct (stream_loop (chunks r) (handleSubmit_begin st0)) as [st1|] eqn:Hloop;
    simpl in Hrun; [|done].
  exists st1. split_and!; [done| |done].
  rewrite stream_loop_lines in Hloop.
  apply (process_lines_streaming [] _ _ _ (streaming_begin st0) Hloop).
Qed.

(** C2 (as amended). After a chat submission, whatever events were
    received and however the stream ended, the assistant message's
    agentsUsed holds no duplicates and is exactly the set made of
    'RootAgent', which the message starts with, the agent of every
    agent_text event, and the truthy agent of every other event; its events
    are the received events in receipt order.  The submission ends in such
    a state whenever the page survives its events: the text of the
    agent_text events can be appended and the values of the events can be
    rendered. *)
Theorem agentsUsed_is_RootAgent_and_event_agents (st0 : state) (r : response) :
  rejected st0 = false →
  let evs := received (lines_of (chunks r)) in
  (Forall presentable evs → is_Some (handleSubmit st0 r))
  ∧ ∀ st, handleSubmit st0 r = Some st →
      ∃ m used,
        lastMsg st = Some m ∧ events m = Some evs ∧ agentsUsed m = Some used
        ∧ NoDup used
        ∧ ∀ a, a ∈ used ↔
               a = VStr "RootAgent"
               ∨ ∃ k d, evs !! k = Some d ∧ a = agent_of k d
                        ∧ (type_is d "agent_text" = true ∨ truthy a = true).
Proof.
  intros Hrej evs. split; [apply handleSubmit_total|].
  intros st Hrun.
  destruct (handleSubmit_inv _ _ _ Hrej Hrun) as (st1 & _ & Hst & Hend).
  destruct Hst as (earlier & m & Hms & Hev & Hused & _ & _).
  rewrite (handleSubmit_end_spec _ _ _ _ Hms) in Hend. simplify_eq.
  assert (Hmem : ∀ a, a ∈ first_seen (VStr "RootAgent" :: credited 0 evs) ↔
            a = VStr "RootAgent"
            ∨ ∃ k d, evs !! k = Some d ∧ a = agent_of k d
                     ∧ (type_is d "agent_text" = true ∨ truthy a = true)).
  { intros a. rewrite elem_of_first_seen, elem_of_cons, elem_of_credited. done. }
  destruct (outcome r) as [|msg].
  - exists m, (first_seen (VStr "RootAgent" :: credited 0 evs)).
    split_and!; [|done|done|apply NoDup_first_seen|done].
    apply (lastMsg_snoc _ earlier). exact Hms.
  - exists {| role := role m; content := "Error: " +:+ msg;
              events := events m; agentsUsed := agentsUsed m |},
           (first_seen (VStr "RootAgent" :: credited 0 evs)).
    split_and!; [|done|done|apply NoDup_first_seen|done].
    apply (lastMsg_snoc _ earlier). reflexivity.
Qed.

Lemma type_is_unique (data : json) (t1 t2 : string) :
  type_is data t1 = true → t1 ≠ t2 → type_is data t2 = false.
Proof.
  unfold type_is. destruct (prop data "type") as [[]|]; try done.
  intros ->%bool_decide_eq_true Hne. by apply bool_decide_eq_false.
Qed.

(** An event that announces an agent appends no text. *)
Lemma announcing_event_printable (data : json) :
  type_is data "agent_start" || type_is data "agent_active" = true →
  printable data.
Proof.
  intros [Hk|Hk]%orb_true_iff Htext;
    by rewrite (type_is_unique _ _ "agent_text" Hk) in Htext.
Qed.

(** C3. At every point of a chat submission (after any number of the
    stream's lines, and when the handler has left the loop) agentHistory has
    no duplicates and lists, in order of first appearance, 'RootAgent' and
    the agents of the agent_start and agent_active events received so far;
    such an event, when the page can render its values, sets activeAgent to
    its agent and appends the agent to agentHistory only if it is not there
    yet (an event whose values cannot be rendered takes the page down and
    leaves no state). *)
Theorem agentHistory_first_appearance (st0 : state) (ls : list string) (st : state) :
  process_lines ls (handleSubmit_begin st0) = Some st →
  NoDup (agentHistory st)
  ∧ agentHistory st = first_seen (VStr "RootAgent" :: announced 0 (received ls))
  ∧ (∀ e st_end, handleSubmit_end e st = Some st_end →
                 agentHistory st_end = agentHistory st)
  ∧ ∀ line data,
      event_of_line line = Some data →
      type_is data "agent_start" || type_is data "agent_active" = true →
      renders data = true →
      let a := agent_of (next_index st) data in
      ∃ st',
        process_line line st = Some st'
        ∧ activeAgent st' = a
        ∧ agentHistory st' =
            if decide (a ∈ agentHistory st) then agentHistory st
            else agentHistory st ++ [a].
Proof.
  intros Hrun.
  pose proof (process_lines_streaming [] _ _ _ (streaming_begin st0) Hrun) as Hst.
  pose proof Hst as (earlier & m & Hms & Hev & Hused & Hc & Hh).
  split_and!.
  - rewrite Hh. apply NoDup_first_seen.
  - done.
  - intros e st_end Hend. rewrite (handleSubmit_end_spec _ _ _ _ Hms) in Hend.
    simplify_eq. by destruct e.
  - intros line data Hline Hkind Hrender a.
    destruct (apply_event_total _ _ _ Hst
                (conj (announcing_event_printable _ Hkind) Hrender))
      as [st' Hstep].
    exists st'. rewrite process_line_event, Hline. split; [done|].
    apply apply_event_Some in Hstep as [Hstep _].
    unfold update_event in Hstep. fold a in Hstep. rewrite Hkind in Hstep.
    destruct (if type_is data "agent_text" then _ else _) as [ms2|];
      simpl in Hstep; [|done].
    destruct (with_last (add_event data a) ms2) as [ms3|]; simpl in Hstep; [|done].
    simplify_eq. simpl. split; [done|].
    unfold push_agent, includes.
    destruct (decide (a ∈ agentHistory st)) as [Hin|Hnin].
    + by rewrite (bool_decide_eq_true_2 _ Hin).
    + by rewrite (bool_decide_eq_false_2 _ Hnin).
Qed.

Lemma process_lines_skip (line : string) (l1 l2 : list string) (st : state) :
  event_of_line line = None →
  process_lines (l1 ++ line :: l2) st = process_lines (l1 ++ l2) st.
Proof.
  intros Hnone. rewrite !process_lines_app.
  destruct (process_lines l1 st) as [st1|]; simpl; [|done].
  by rewrite process_line_event, Hnone.
Qed.

Lemma stream_loop_app (cs1 cs2 : list string) (st : state) :
  stream_loop (cs1 ++ cs2) st = st' ← stream_loop cs1 st; stream_loop cs2 st'.
Proof.
  revert st. induction cs1 as [|c cs1 IH]; intros st; simpl; [done|].
  destruct (process_lines (split newline c) st); simpl; [apply IH | done].
Qed.

(** C4. A [data: ] line whose payload is not valid JSON changes no state
    and does not stop the loop: the lines after it, in its chunk and in the
    later chunks, are processed as they are when the line is absent. *)
Theorem malformed_line_is_skipped
    (bad : string) (st : state) (cs1 cs2 : list string) (c : string)
    (l1 l2 : list string) :
  startsWith bad "data: " = true →
  JSON_parse (slice 6 bad) = None →
  split newline c = l1 ++ bad :: l2 →
  process_line bad st = Some st
  ∧ stream_loop (cs1 ++ c :: cs2) st =
      st1 ← stream_loop cs1 st;
      st2 ← process_lines (l1 ++ l2) st1;
      stream_loop cs2 st2.
Proof.
  intros Hdata Hparse Hsplit.
  assert (Hnone : event_of_line bad = None).
  { unfold event_of_line. by rewrite Hdata, Hparse. }
  split.
  - by rewrite process_line_event, Hnone.
  - rewrite stream_loop_app. destruct (stream_loop cs1 st) as [st1|]; simpl; [|done].
    by rewrite Hsplit, (process_lines_skip _ _ _ _ Hnone).
Qed.

(** C9. A line that does not start with [data: ] is ignored: processing it
    leaves the whole state (messages with their text, events and
    agentsUsed, activeAgent, agentHistory) as it was, and a sequence of
    lines is processed as it is without that line. *)
Theorem non_data_line_is_ignored (line : string) (st : state) (l1 l2 : list string) :
  startsWith line "data: " = false →
  process_line line st = Some st
  ∧ process_lines (l1 ++ line :: l2) st = process_lines (l1 ++ l2) st.
Proof.
  intros Hpre.
  assert (Hnone : event_of_line line = None).
  { unfold event_of_line. by rewrite Hpre. }
  split.
  - by rewrite process_line_event, Hnone.
  - by apply process_lines_skip.
Qed.

(** C5. When the transport fails during a chat stream, the text of the
    message in progress becomes the error description; its events and
    agentsUsed, the earlier messages, the active agent and the agent history
    stay as the stream loop left them. *)
Theorem transport_error_overwrites_text_only
    (st0 : state) (cs : list string) (msg : string) (st1 : state) :
  rejected st0 = false →
  stream_loop cs (handleSubmit_begin st0) = Some st1 →
  ∃ earlier m st',
    messages st1 = earlier ++ [m]
    ∧ handleSubmit st0 {| chunks := cs; outcome := Failed msg |} = Some st'
    ∧ messages st' =
        earlier ++ [{| role := role m; content := "Error: " +:+ msg;
                       events := events m; agentsUsed := agentsUsed m |}]
    ∧ activeAgent st' = activeAgent st1
    ∧ agentHistory st' = agentHistory st1.
Proof.
  intros Hrej Hloop.
  pose proof Hloop as Hst. rewrite stream_loop_lines in Hst.
  apply (process_lines_streaming [] _ _ _ (streaming_begin st0)) in Hst.
  destruct Hst as (earlier & m & Hms & _).
  exists earlier, m. eexists. split; [done|].
  unfold handleSubmit. rewrite Hrej. simpl. rewrite Hloop. simpl.
  rewrite (handleSubmit_end_spec _ _ _ _ Hms). done.
Qed.

(** C7. When the reader reports done, activeAgent is cleared, and
    agentHistory and the messages (so the events, the text and agentsUsed of
    the message in progress) are as the stream loop left them. *)
Theorem natural_end_clears_activeAgent_only
    (st0 : state) (cs : list string) (st1 : state) :
  rejected st0 = false →
  stream_loop cs (handleSubmit_begin st0) = Some st1 →
  ∃ st',
    handleSubmit st0 {| chunks := cs; outcome := Done |} = Some st'
    ∧ activeAgent st' = VNull
    ∧ agentHistory st' = agentHistory st1
    ∧ messages st' = messages st1.
Proof.
  intros Hrej Hloop. eexists.
  unfold handleSubmit. rewrite Hrej. simpl. rewrite Hloop. simpl. done.
Qed.

(** C6 (as amended). A new submission resets the session to the root
    agent: activeAgent is 'RootAgent' and agentHistory is ['RootAgent'].
    When the stream ends by the reader reporting done, activeAgent is
    cleared and agentHistory keeps the agents seen during the stream,
    'RootAgent' first. *)
Theorem session_reset_on_submit_and_done
    (st0 : state) (cs : list string) (st1 : state) :
  rejected st0 = false →
  stream_loop cs (handleSubmit_begin st0) = Some st1 →
  activeAgent (handleSubmit_begin st0) = VStr "RootAgent"
  ∧ agentHistory (handleSubmit_begin st0) = [VStr "RootAgent"]
  ∧ ∃ st' rest,
      handleSubmit st0 {| chunks := cs; outcome := Done |} = Some st'
      ∧ activeAgent st' = VNull
      ∧ agentHistory st' = VStr "RootAgent" :: rest
      ∧ agentHistory st' = first_seen (VStr "RootAgent" :: announced 0 (received (lines_of cs))).
Proof.
  intros Hrej Hloop. split_and!; [done..|].
  pose proof Hloop as Hst. rewrite stream_loop_lines in Hst.
  apply (process_lines_streaming [] _ _ _ (streaming_begin st0)) in Hst.
  destruct Hst as (earlier & m & Hms & _ & _ & _ & Hh).
  eexists _, _.
  unfold handleSubmit. rewrite Hrej. simpl. rewrite Hloop. simpl.
  split_and!; [done|done| |exact Hh].
  simpl. rewrite Hh. reflexivity.
Qed.

(** C10 (as amended). An agent_text event that the page survives (its
    content can be appended, its values can be rendered) adds its agent to
    agentsUsed of the message in progress without a guard: agentsUsed
    becomes the set it was with the event's agent added, whatever the agent
    is; when the event has no agent property the undefined value enters
    agentsUsed, a string agent enters as that string, null, a boolean or a
    number as itself.  The presence guard belongs to the append that every
    event goes through: an event of another type without an agent property
    leaves agentsUsed as it was. *)
Theorem agent_text_adds_agent_unguarded
    (evs : list json) (st : state) (line : string) (data : json) :
  streaming evs st → event_of_line line = Some data → presentable data →
  ∃ m used st' m' used',
    lastMsg st = Some m
    ∧ agentsUsed m = Some used
    ∧ process_line line st = Some st'
    ∧ lastMsg st' = Some m'
    ∧ agentsUsed m' = Some used'
    ∧ (type_is data "agent_text" = true →
       (∃ a, a = agent_of (next_index st) data
             ∧ used' = if decide (a ∈ used) then used else used ++ [a])
       ∧ (prop data "agent" = None → VUndefined ∈ used')
       ∧ (∀ s, prop data "agent" = Some (JStr s) → VStr s ∈ used')
       ∧ (prop data "agent" = Some JNull → VNull ∈ used')
       ∧ (∀ b, prop data "agent" = Some (JBool b) → VBool b ∈ used')
       ∧ (∀ r, prop data "agent" = Some (JNum r) → VNum r ∈ used'))
    ∧ (type_is data "agent_text" = false → prop data "agent" = None →
       used' = used).
Proof.
  intros Hst Hline Hp.
  destruct (apply_event_total _ _ _ Hst Hp) as [st' Hap].
  pose proof (apply_event_streaming _ _ _ _ Hst Hap) as Hst'.
  pose proof (streaming_next_index _ _ Hst) as Hidx.
  destruct Hst as (earlier & m & Hms & Hev & Hused & _ & _).
  destruct Hst' as (earlier' & m' & Hms' & Hev' & Hused' & _ & _).
  exists m, (first_seen (VStr "RootAgent" :: credited 0 evs)), st', m',
    (first_seen (VStr "RootAgent" :: credited 0 (evs ++ [data]))).
  split_and!.
  - apply (lastMsg_snoc _ earlier). exact Hms.
  - exact Hused.
  - by rewrite process_line_event, Hline.
  - apply (lastMsg_snoc _ earlier'). exact Hms'.
  - exact Hused'.
  - intros Htext. rewrite Hidx.
    assert (Heq : first_seen (VStr "RootAgent" :: credited 0 (evs ++ [data])) =
              if decide (agent_of (length evs) data
                         ∈ first_seen (VStr "RootAgent" :: credited 0 evs))
              then first_seen (VStr "RootAgent" :: credited 0 evs)
              else first_seen (VStr "RootAgent" :: credited 0 evs)
                   ++ [agent_of (length evs) data]).
    { rewrite credited_snoc, Htext. simpl orb. cbn iota.
      rewrite app_comm_cons, first_seen_snoc.
      destruct (decide (agent_of (0 + length evs) data
                        ∈ VStr "RootAgent" :: credited 0 evs)) as [Hin|Hnin].
      - rewrite decide_True; [done | by apply elem_of_first_seen].
      - rewrite decide_False; [done | by rewrite elem_of_first_seen]. }
    assert (Hin : agent_of (length evs) data
                  ∈ first_seen (VStr "RootAgent" :: credited 0 (evs ++ [data]))).
    { rewrite elem_of_first_seen, credited_snoc, Htext. simpl.
      apply elem_of_cons. right. apply elem_of_app. right.
      apply elem_of_cons. by left. }
    split; [by eexists|].
    unfold agent_of in Hin.
    split_and!; [intros Hk|intros s Hk|intros Hk|intros b Hk|intros r Hk];
      by rewrite Hk in Hin.
  - intros Htext Hnone. f_equal.
    rewrite credited_snoc, Htext. unfold agent_of at 1. rewrite Hnone. simpl.
    by rewrite app_nil_r.
Qed.

End ChatTheory.

(** ** Chunk boundaries *)

Section ChunkBoundaries.
Context `{Host}.
Import Chat.

Lemma split_nonempty (sep : ascii) (s : string) : split sep s ≠ [].
Proof.
  destruct s as [|c s]; simpl; [done|].
  destruct (decide (c = sep)); [done|]. by destruct (split sep s).
Qed.

(** Splitting at a separator splits the text on either side of it. *)
Lemma split_at_separator (sep : ascii) (a b : string) :
  split sep (a +:+ String sep b) = split sep a ++ split sep b.
Proof.
  induction a as [|c a IH].
  - change (EmptyString +:+ String sep b) with (String sep b). simpl.
    by rewrite decide_True.
  - change (String c a +:+ String sep b) with (String c (a +:+ String sep b)).
    simpl. rewrite IH. destruct (decide (c = sep)); [done|].
    pose proof (split_nonempty sep a) as Hne.
    destruct (split sep a) as [|l ls]; done.
Qed.

Lemma split_line_aligned (body rest : string) :
  split newline ((body +:+ String newline EmptyString) +:+ rest) =
  split newline body ++ split newline rest.
Proof.
  rewrite string_append_assoc.
  change (String newline EmptyString +:+ rest) with (String newline rest).
  apply split_at_separator.
Qed.

Lemma process_lines_blank (st : state) : process_lines [EmptyString] st = Some st.
Proof. reflexivity. Qed.

(** When every chunk ends at the end of a line, the loop does what it does
    on the whole text delivered as one chunk. *)
Lemma stream_loop_line_aligned (cs : list string) (st : state) :
  Forall line_aligned cs →
  stream_loop cs st = stream_loop [String.concat "" cs] st.
Proof.
  intros Hal. revert st. induction Hal as [|c cs [body ->] Hcs IH]; intros st.
  - reflexivity.
  - assert (Hcat : String.concat "" ((body +:+ String newline EmptyString) :: cs) =
                   (body +:+ String newline EmptyString) +:+ String.concat "" cs).
    { destruct cs; [by rewrite string_append_empty_r | done]. }
    rewrite Hcat. simpl. rewrite split_line_aligned.
    replace (body +:+ String newline EmptyString)
      with ((body +:+ String newline EmptyString) +:+ EmptyString)
      by apply string_append_empty_r.
    rewrite split_line_aligned. simpl split at 2.
    rewrite !process_lines_app.
    destruct (process_lines (split newline body) st) as [st1|]; simpl; [|done].
    rewrite IH. simpl.
    by destruct (process_lines (split newline (String.concat "" cs)) st1).
Qed.

(** The text of the message in progress is the concatenation, in receipt
    order, of what the received events print. *)
Lemma content_is_concatenation (cs : list string) (st0 st1 : state) :
  stream_loop cs (handleSubmit_begin st0) = Some st1 →
  ∃ m, lastMsg st1 = Some m
       ∧ content m = String.concat "" (map text_of (received (lines_of cs))).
Proof.
  intros Hloop. rewrite stream_loop_lines in Hloop.
  apply (process_lines_streaming [] _ _ _ (streaming_begin st0)) in Hloop.
  destruct Hloop as (earlier & m & Hms & _ & _ & Hc & _).
  exists m. split; [by apply (lastMsg_snoc _ earlier) | done].
Qed.

(** An agent_text event with a string for its content prints that
    string. *)
Lemma text_of_agent_text (data : json) (t : string) :
  type_is data "agent_text" = true → prop data "content" = Some (JStr t) →
  text_of data = t.
Proof. intros Htext Hc. unfold text_of. by rewrite Htext, Hc. Qed.

End ChunkBoundaries.

(** ** The upload page *)

Section UploadTheory.
Import Upload.

(** C8. With no file selected, the upload action sends no request and
    leaves the upload state (selected files, pending flag, result banner)
    as it was, and the button that triggers it is disabled; a request is
    sent only from a state with a file selected. *)
Theorem upload_without_files_does_nothing
    (env : option string) (st : state) (r : reply) :
  files st = [] →
  handleUpload env st r = (st, [])
  ∧ disabled st = true
  ∧ onClick env st r = (st, [])
  ∧ ∀ st', snd (handleUpload env st' r) ≠ [] → files st' ≠ [].
Proof.
  intros Hfiles. unfold onClick, disabled, handleUpload. rewrite Hfiles. simpl.
  rewrite orb_true_r. split_and!; [done..|].
  intros st' Hsent Hnone. rewrite Hnone in Hsent. done.
Qed.

End UploadTheory.

(** ** Runs on the browser host *)

Section Runs.
Import Chat Browser Demo.

(** The scenario of the specification: the text is put together from the
    two fragments, the history holds the root agent once, both agents are
    credited. *)
Example scenario_run :
  handleSubmit asked {| chunks := scenario; outcome := Done |} = Some after_scenario.
Proof. vm_compute. reflexivity. Qed.

(** C1. The final text depends on where the chunk boundaries fall: the
    same bytes give 'Yes, it complies.' when the line arrives in one chunk
    and the empty text, with no event recorded, when a boundary falls inside
    the line. *)
Theorem line_split_across_chunks_is_lost :
  String.concat "" halves = String.concat "" whole
  ∧ handleSubmit asked {| chunks := whole; outcome := Done |} =
    Some {| query := "";
            messages :=
              [{| role := "user"; content := "Does this request comply?";
                  events := None; agentsUsed := None |};
               {| role := "assistant"; content := "Yes, it complies.";
                  events :=
                    Some [JObj [("type", JStr "agent_text"); ("agent", JStr "RAGAgent");
                                ("content", JStr "Yes, it complies.")]];
                  agentsUsed := Some [VStr "RootAgent"; VStr "RAGAgent"] |}];
            loading := false;
            activeAgent := VNull;
            agentHistory := [VStr "RootAgent"] |}
  ∧ handleSubmit asked {| chunks := halves; outcome := Done |} =
    Some {| query := "";
            messages :=
              [{| role := "user"; content := "Does this request comply?";
                  events := None; agentsUsed := None |};
               {| role := "assistant"; content := "";
                  events := Some [];
                  agentsUsed := Some [VStr "RootAgent"] |}];
            loading := false;
            activeAgent := VNull;
            agentHistory := [VStr "RootAgent"] |}.
Proof. split_and!; vm_compute; reflexivity. Qed.

(** Counterexample to C2 as stated: a stream that delivers no event leaves
    'RootAgent' in agentsUsed, an identifier that no received event
    carries. *)
Lemma agentsUsed_holds_RootAgent_without_events :
  received (lines_of []) = []
  ∧ ((handleSubmit asked {| chunks := []; outcome := Done |} ≫= lastMsg)
       ≫= agentsUsed) = Some [VStr "RootAgent"]
  ∧ ¬ (∀ a, a ∈ [VStr "RootAgent"] ↔ a ∈ carried 0 (received (lines_of []))).
Proof.
  split_and!; [reflexivity | vm_compute; reflexivity |].
  intros Hall. destruct (Hall (VStr "RootAgent")) as [Hin _].
  assert (Hroot : VStr "RootAgent" ∈ [VStr "RootAgent"]) by (apply elem_of_cons; by left).
  apply Hin in Hroot. change (carried 0 (received (lines_of []))) with (@nil value) in Hroot.
  by apply elem_of_nil in Hroot.
Qed.

(** Counterexample to C6 as stated: the session is not empty when a query
    is submitted, nor after the reader reports done, nor after a transport
    error, where activeAgent still names the root agent. *)
Lemma session_is_not_emptied :
  ¬ session_empty (handleSubmit_begin asked)
  ∧ (∃ st, handleSubmit asked {| chunks := scenario; outcome := Done |} = Some st
           ∧ agentHistory st = [VStr "RootAgent"] ∧ ¬ session_empty st)
  ∧ (∃ st, handleSubmit asked {| chunks := []; outcome := Failed "Failed to fetch" |} = Some st
           ∧ activeAgent st = VStr "RootAgent" ∧ ¬ session_empty st).
Proof.
  split_and!.
  - intros [Hactive _]. discriminate Hactive.
  - eexists. split; [vm_compute; reflexivity|]. split; [reflexivity|].
    intros [_ Hhist]. discriminate Hhist.
  - eexists. split; [vm_compute; reflexivity|]. split; [reflexivity|].
    intros [Hactive _]. discriminate Hactive.
Qed.

(** Counterexample to C10 as stated: an agent_text event without an agent
    whose content is an object hiding toString.  Line 208 throws before
    line 209 is reached, the exception takes the page down, and there is no
    state in which the undefined value was added to agentsUsed. *)
Lemma agent_text_agent_is_not_always_added :
  event_of_line Samples.shadowed_text = Some Samples.shadowed_text_event
  ∧ type_is Samples.shadowed_text_event "agent_text" = true
  ∧ prop Samples.shadowed_text_event "agent" = None
  ∧ process_line Samples.shadowed_text (handleSubmit_begin asked) = None
  ∧ handleSubmit asked {| chunks := [Samples.shadowed_text +:+ nl]; outcome := Done |}
    = None
  ∧ ¬ (∃ st' m' used',
         process_line Samples.shadowed_text (handleSubmit_begin asked) = Some st'
         ∧ lastMsg st' = Some m'
         ∧ agentsUsed m' = Some used'
         ∧ VUndefined ∈ used').
Proof.
  assert (Hnone : process_line Samples.shadowed_text (handleSubmit_begin asked) = None)
    by (vm_compute; reflexivity).
  split_and!; [vm_compute; reflexivity|reflexivity|reflexivity|exact Hnone
              |vm_compute; reflexivity|].
  intros (st' & m' & used' & Hsome & _). rewrite Hnone in Hsome. discriminate Hsome.
Qed.

(** An event whose agent is an object takes the page down: React throws on
    the object where the active agent, the timeline and the badge show
    it. *)
Example object_agent_run :
  process_line Samples.object_agent (handleSubmit_begin asked) = None.
Proof. vm_compute. reflexivity. Qed.

End Runs.

(** ** The theorems at work on the scenario *)

Section Witnesses.
Import Chat Browser Demo.

Lemma agentsUsed_is_RootAgent_and_event_agents_witness :
  rejected asked = false
  ∧ handleSubmit asked {| chunks := scenario; outcome := Done |} = Some after_scenario
  ∧ (Forall presentable (received (lines_of scenario)) →
     is_Some (handleSubmit asked {| chunks := scenario; outcome := Done |}))
  ∧ ∃ m used,
      lastMsg after_scenario = Some m
      ∧ events m = Some (received (lines_of scenario))
      ∧ agentsUsed m = Some used
      ∧ NoDup used
      ∧ ∀ a, a ∈ used ↔
             a = VStr "RootAgent"
             ∨ ∃ k d, received (lines_of scenario) !! k = Some d ∧ a = agent_of k d
                      ∧ (type_is d "agent_text" = true ∨ truthy a = true).
Proof.
  assert (H1 : rejected asked = false) by (vm_compute; reflexivity).
  assert (H2 : handleSubmit asked {| chunks := scenario; outcome := Done |}
               = Some after_scenario) by (vm_compute; reflexivity).
  split; [exact H1|]. split; [exact H2|].
  destruct (agentsUsed_is_RootAgent_and_event_agents asked
              {| chunks := scenario; outcome := Done |} H1) as [Htotal Hset].
  split; [exact Htotal | exact (Hset after_scenario H2)].
Defined.

Lemma agentHistory_first_appearance_witness :
  process_lines (lines_of scenario) (handleSubmit_begin asked) = Some streamed_scenario
  ∧ NoDup (agentHistory streamed_scenario)
  ∧ agentHistory streamed_scenario =
      first_seen (VStr "RootAgent" :: announced 0 (received (lines_of scenario)))
  ∧ ∃ st',
      process_line rag_active streamed_scenario = Some st'
      ∧ activeAgent st' = VStr "RAGAgent"
      ∧ agentHistory st' = [VStr "RootAgent"; VStr "RAGAgent"].
Proof.
  assert (H1 : process_lines (lines_of scenario) (handleSubmit_begin asked)
               = Some streamed_scenario) by (vm_compute; reflexivity).
  split; [exact H1|].
  destruct (agentHistory_first_appearance asked (lines_of scenario)
              streamed_scenario H1) as (Hnodup & Hfirst & _ & Hstep).
  split; [exact Hnodup|]. split; [exact Hfirst|].
  assert (H2 : event_of_line rag_active =
               Some (JObj [("type", JStr "agent_active"); ("agent", JStr "RAGAgent")]))
    by (vm_compute; reflexivity).
  destruct (Hstep rag_active _ H2 eq_refl eq_refl) as (st' & Hrun & Hactive & Hhist).
  exists st'. split; [exact Hrun|]. split; [exact Hactive | exact Hhist].
Defined.

Lemma malformed_line_is_skipped_witness :
  startsWith truncated "data: " = true
  ∧ JSON_parse (slice 6 truncated) = None
  ∧ split newline (truncated +:+ nl +:+ rag_yes) = [] ++ truncated :: [rag_yes]
  ∧ process_line truncated (handleSubmit_begin asked) = Some (handleSubmit_begin asked)
  ∧ stream_loop ([] ++ (truncated +:+ nl +:+ rag_yes) :: whole) (handleSubmit_begin asked) =
      st1 ← stream_loop [] (handleSubmit_begin asked);
      st2 ← process_lines ([] ++ [rag_yes]) st1;
      stream_loop whole st2.
Proof.
  assert (H1 : startsWith truncated "data: " = true) by (vm_compute; reflexivity).
  assert (H2 : JSON_parse (slice 6 truncated) = None) by (vm_compute; reflexivity).
  assert (H3 : split newline (truncated +:+ nl +:+ rag_yes) = [] ++ truncated :: [rag_yes])
    by (vm_compute; reflexivity).
  split; [exact H1|]. split; [exact H2|]. split; [exact H3|].
  exact (malformed_line_is_skipped truncated (handleSubmit_begin asked) [] whole
           (truncated +:+ nl +:+ rag_yes) [] [rag_yes] H1 H2 H3).
Defined.

Lemma non_data_line_is_ignored_witness :
  startsWith EmptyString "data: " = false
  ∧ process_line EmptyString (handleSubmit_begin asked) = Some (handleSubmit_begin asked)
  ∧ process_lines ([rag_yes] ++ EmptyString :: [rag_complies]) (handleSubmit_begin asked) =
    process_lines ([rag_yes] ++ [rag_complies]) (handleSubmit_begin asked).
Proof.
  assert (H1 : startsWith EmptyString "data: " = false) by reflexivity.
  split; [exact H1|].
  exact (non_data_line_is_ignored EmptyString (handleSubmit_begin asked)
           [rag_yes] [rag_complies] H1).
Defined.

Lemma transport_error_overwrites_text_only_witness :
  rejected asked = false
  ∧ stream_loop scenario (handleSubmit_begin asked) = Some streamed_scenario
  ∧ ∃ earlier m st',
      messages streamed_scenario = earlier ++ [m]
      ∧ handleSubmit asked {| chunks := scenario; outcome := Failed "Failed to fetch" |}
        = Some st'
      ∧ messages st' =
          earlier ++ [{| role := role m; content := "Error: " +:+ "Failed to fetch";
                         events := events m; agentsUsed := agentsUsed m |}]
      ∧ activeAgent st' = activeAgent streamed_scenario
      ∧ agentHistory st' = agentHistory streamed_scenario.
Proof.
  assert (H1 : rejected asked = false) by (vm_compute; reflexivity).
  assert (H2 : stream_loop scenario (handleSubmit_begin asked) = Some streamed_scenario)
    by (vm_compute; reflexivity).
  split; [exact H1|]. split; [exact H2|].
  exact (transport_error_overwrites_text_only asked scenario "Failed to fetch"
           streamed_scenario H1 H2).
Defined.

Lemma natural_end_clears_activeAgent_only_witness :
  rejected asked = false
  ∧ stream_loop scenario (handleSubmit_begin asked) = Some streamed_scenario
  ∧ ∃ st',
      handleSubmit asked {| chunks := scenario; outcome := Done |} = Some st'
      ∧ activeAgent st' = VNull
      ∧ agentHistory st' = agentHistory streamed_scenario
      ∧ messages st' = messages streamed_scenario.
Proof.
  assert (H1 : rejected asked = false) by (vm_compute; reflexivity).
  assert (H2 : stream_loop scenario (handleSubmit_begin asked) = Some streamed_scenario)
    by (vm_compute; reflexivity).
  split; [exact H1|]. split; [exact H2|].
  exact (natural_end_clears_activeAgent_only asked scenario streamed_scenario H1 H2).
Defined.

Lemma session_reset_on_submit_and_done_witness :
  rejected asked = false
  ∧ stream_loop scenario (handleSubmit_begin asked) = Some streamed_scenario
  ∧ activeAgent (handleSubmit_begin asked) = VStr "RootAgent"
  ∧ agentHistory (handleSubmit_begin asked) = [VStr "RootAgent"]
  ∧ ∃ st' rest,
      handleSubmit asked {| chunks := scenario; outcome := Done |} = Some st'
      ∧ activeAgent st' = VNull
      ∧ agentHistory st' = VStr "RootAgent" :: rest
      ∧ agentHistory st' =
          first_seen (VStr "RootAgent" :: announced 0 (received (lines_of scenario))).
Proof.
  assert (H1 : rejected asked = false) by (vm_compute; reflexivity).
  assert (H2 : stream_loop scenario (handleSubmit_begin asked) = Some streamed_scenario)
    by (vm_compute; reflexivity).
  split; [exact H1|]. split; [exact H2|].
  exact (session_reset_on_submit_and_done asked scenario streamed_scenario H1 H2).
Defined.

Lemma agent_text_adds_agent_unguarded_witness :
  streaming [] (handleSubmit_begin asked)
  ∧ event_of_line anonymous_text = Some anonymous_text_event
  ∧ presentable anonymous_text_event
  ∧ ∃ m used st' m' used',
      lastMsg (handleSubmit_begin asked) = Some m
      ∧ agentsUsed m = Some used
      ∧ process_line anonymous_text (handleSubmit_begin asked) = Some st'
      ∧ lastMsg st' = Some m'
      ∧ agentsUsed m' = Some used'
      ∧ (type_is anonymous_text_event "agent_text" = true →
         (∃ a, a = agent_of (next_index (handleSubmit_begin asked)) anonymous_text_event
               ∧ used' = if decide (a ∈ used) then used else used ++ [a])
         ∧ (prop anonymous_text_event "agent" = None → VUndefined ∈ used')
         ∧ (∀ s, prop anonymous_text_event "agent" = Some (JStr s) → VStr s ∈ used')
         ∧ (prop anonymous_text_event "agent" = Some JNull → VNull ∈ used')
         ∧ (∀ b, prop anonymous_text_event "agent" = Some (JBool b) → VBool b ∈ used')
         ∧ (∀ r, prop anonymous_text_event "agent" = Some (JNum r) → VNum r ∈ used'))
      ∧ (type_is anonymous_text_event "agent_text" = false →
         prop anonymous_text_event "agent" = None →
         used' = used).
Proof.
  assert (H1 : streaming [] (handleSubmit_begin asked)).
  { eexists _, _. split; [reflexivity|]. repeat split; reflexivity. }
  assert (H2 : event_of_line anonymous_text = Some anonymous_text_event)
    by (vm_compute; reflexivity).
  assert (H3 : presentable anonymous_text_event).
  { split; [|reflexivity]. intros _. exists "Checking". reflexivity. }
  split; [exact H1|]. split; [exact H2|]. split; [exact H3|].
  exact (agent_text_adds_agent_unguarded [] (handleSubmit_begin asked)
           anonymous_text anonymous_text_event H1 H2 H3).
Defined.

Lemma upload_without_files_does_nothing_witness :
  Upload.files Upload.initial = []
  ∧ Upload.handleUpload None Upload.initial (Upload.Rejected "Network Error")
    = (Upload.initial, [])
  ∧ Upload.disabled Upload.initial = true
  ∧ Upload.onClick None Upload.initial (Upload.Rejected "Network Error")
    = (Upload.initial, [])
  ∧ ∀ st', snd (Upload.handleUpload None st' (Upload.Rejected "Network Error")) ≠ []
           → Upload.files st' ≠ [].
Proof.
  assert (H1 : Upload.files Upload.initial = []) by reflexivity.
  split; [exact H1|].
  exact (upload_without_files_does_nothing None Upload.initial
           (Upload.Rejected "Network Error") H1).
Defined.

End Witnesses.

(** ** Uploads that send a request *)

Section UploadFlows.
Import Upload UploadView.

Lemma handleUpload_with_files (env : option string) (st : state) (r : reply) :
  files st ≠ [] →
  handleUpload env st r =
  (match r with
   | Resolved data => {| files := []; uploading := false; result := data |}
   | Rejected message =>
       {| files := files st; uploading := false;
          result := JObj [("status", JStr "error"); ("message", JStr message)] |}
   end,
   [{| url := API_URL env +:+ "/embed";
       formData := map (λ f, ("files", f)) (files st);
       contentType := "multipart/form-data" |}]).
Proof.
  intros Hfiles. unfold handleUpload.
  destruct (files st) as [|f fs] eqn:Hf; [done|]. simpl.
  destruct r; simpl; rewrite ?Hf; reflexivity.
Qed.

Lemma formData_entries (fs : list file) :
  map snd (map (λ f : file, ("files", f)) fs) = fs
  ∧ Forall (λ entry : string * file, fst entry = "files")
           (map (λ f : file, ("files", f)) fs).
Proof.
  induction fs as [|f fs [IH1 IH2]]; simpl; [by split|].
  split; [by rewrite IH1 | by constructor].
Qed.


(** X2. A failed upload keeps the selection for a retry: the files stay
    selected, the banner shows the error heading with the transport's
    message, the button is enabled again, and a second click sends the same
    request once more. *)
Theorem failed_upload_can_be_retried
    (env : option string) (st : state) (message : string) (r' : reply) :
  files st ≠ [] →
  let st' := fst (handleUpload env st (Rejected message)) in
  files st' = files st
  ∧ uploading st' = false
  ∧ banner_visible st' = true
  ∧ banner_is_success st' = false
  ∧ banner_message st' = Some (JStr message)
  ∧ disabled st' = false
  ∧ snd (onClick env st' r') = snd (handleUpload env st (Rejected message)).
Proof.
  intros Hfiles st'. unfold st'.
  rewrite (handleUpload_with_files _ _ _ Hfiles). simpl.
  assert (Hen : disabled {| files := files st; uploading := false;
                            result := JObj [("status", JStr "error");
                                            ("message", JStr message)] |} = false).
  { unfold disabled. simpl. by destruct (files st). }
  split_and!; [done..|].
  unfold onClick. rewrite Hen.
  rewrite handleUpload_with_files by exact Hfiles. reflexivity.
Qed.



Lemma failed_upload_can_be_retried_witness :
  files Samples.picked ≠ []
  ∧ files (fst (handleUpload None Samples.picked (Rejected "Network Error")))
    = files Samples.picked
  ∧ banner_message (fst (handleUpload None Samples.picked (Rejected "Network Error")))
    = Some (JStr "Network Error").
Proof.
  assert (H1 : files Samples.picked ≠ []) by (intros Hnil; discriminate Hnil).
  split; [exact H1|].
  destruct (failed_upload_can_be_retried None Samples.picked "Network Error"
              (Rejected "Network Error") H1) as (Hf & _ & _ & _ & Hm & _).
  exact (conj Hf Hm).
Defined.


End UploadFlows.

(** ** The conversation around a submission *)

Section ChatFlows.
Context `{Host}.
Import Chat ChatView.

#[local] Arguments first_seen : simpl never.

Lemma add_text_role (data : json) (a : value) (m m' : message) :
  add_text data a m = Some m' → role m' = role m.
Proof. unfold add_text. intros Hm. simplify_option_eq. done. Qed.

Lemma add_event_role (data : json) (a : value) (m m' : message) :
  add_event data a m = Some m' → role m' = role m.
Proof.
  unfold add_event. intros Hm. destruct (truthy a); simplify_option_eq; done.
Qed.

(** An event rewrites the last message only, and keeps its role. *)
Lemma apply_event_frame
    (data : json) (st st' : state) (earlier : list message) (m : message) :
  messages st = earlier ++ [m] → apply_event data st = Some st' →
  ∃ m', messages st' = earlier ++ [m'] ∧ role m' = role m
        ∧ loading st' = loading st ∧ query st' = query st.
Proof.
  intros Hms [Hap _]%apply_event_Some. unfold update_event in Hap.
  set (a := agent_of (next_index st) data) in *.
  set (st1 := if type_is data "agent_start" || type_is data "agent_active"
              then set_agentHistory (push_agent a (agentHistory st)) (set_activeAgent a st)
              else st) in *.
  assert (messages st1 = earlier ++ [m] ∧ loading st1 = loading st
          ∧ query st1 = query st) as (H1 & H2 & H3).
  { unfold st1. by destruct (type_is data "agent_start" || type_is data "agent_active"). }
  rewrite H1 in Hap. clearbody st1.
  destruct (type_is data "agent_text").
  - rewrite with_last_snoc in Hap.
    destruct (add_text data a m) as [m2|] eqn:Ht; simpl in Hap; [|done].
    rewrite with_last_snoc in Hap.
    destruct (add_event data a m2) as [m3|] eqn:He; simpl in Hap; [|done].
    simplify_eq. exists m3. simpl. split_and!; [done| |done..].
    by rewrite (add_event_role _ _ _ _ He), (add_text_role _ _ _ _ Ht).
  - simpl in Hap. rewrite with_last_snoc in Hap.
    destruct (add_event data a m) as [m3|] eqn:He; simpl in Hap; [|done].
    simplify_eq. exists m3. simpl. split_and!; [done| |done..].
    by rewrite (add_event_role _ _ _ _ He).
Qed.

Lemma process_lines_frame
    (ls : list string) (st st' : state) (earlier : list message) (m : message) :
  messages st = earlier ++ [m] → process_lines ls st = Some st' →
  ∃ m', messages st' = earlier ++ [m'] ∧ role m' = role m
        ∧ loading st' = loading st ∧ query st' = query st.
Proof.
  revert st m. induction ls as [|l ls IH]; intros st m Hms Hrun; simpl in Hrun.
  - simplify_eq. by exists m.
  - rewrite process_line_event in Hrun.
    destruct (event_of_line l) as [d|].
    + destruct (apply_event d st) as [st1|] eqn:Hap; simpl in Hrun; [|done].
      destruct (apply_event_frame _ _ _ _ _ Hms Hap) as (m1 & Hms1 & Hr1 & Hl1 & Hq1).
      destruct (IH _ _ Hms1 Hrun) as (m' & Hms' & Hr' & Hl' & Hq').
      exists m'. split_and!; [done|congruence..].
    + simpl in Hrun. by apply IH.
Qed.

Lemma handleSubmit_begin_messages (st : state) :
  messages (handleSubmit_begin st) =
  (messages st ++ [{| role := "user"; content := query st;
                      events := None; agentsUsed := None |}])
  ++ [{| role := "assistant"; content := ""; events := Some [];
         agentsUsed := Some [VStr "RootAgent"] |}].
Proof. reflexivity. Qed.

(** X4. A submission that is not rejected appends exactly two messages to
    the conversation and rewrites none of the earlier ones: the user's
    message with the query as typed, and the assistant's answer.  When the
    handler has returned, the query field is empty, the input is enabled
    again and the timeline is hidden, however the stream ended. *)
Theorem submission_appends_two_messages (st : state) (r : response) (st' : state) :
  rejected st = false → handleSubmit st r = Some st' →
  ∃ answer,
    messages st' =
      messages st ++ [{| role := "user"; content := query st;
                         events := None; agentsUsed := None |}; answer]
    ∧ role answer = "assistant"
    ∧ query st' = ""
    ∧ loading st' = false
    ∧ input_disabled st' = false
    ∧ timeline_visible st' = false
    ∧ welcome_visible st' = false.
Proof.
  intros Hrej Hrun.
  destruct (handleSubmit_inv _ _ _ Hrej Hrun) as (st1 & Hloop & _ & Hend).
  rewrite stream_loop_lines in Hloop.
  destruct (process_lines_frame _ _ _ _ _ (handleSubmit_begin_messages st) Hloop)
    as (m & Hms & Hrole & _ & Hq).
  rewrite (handleSubmit_end_spec _ _ _ _ Hms) in Hend. simplify_eq.
  assert (Hwel : ∀ (l : list message) (a b : message),
            (length (l ++ [a; b]) =? 0)%nat = false).
  { intros l a b. rewrite length_app. simpl. apply Nat.eqb_neq. lia. }
  destruct (outcome r) as [|msg].
  - exists m. unfold input_disabled, timeline_visible, welcome_visible. simpl.
    rewrite Hms, <- app_assoc, andb_false_r. simpl. split_and!; try done; apply Hwel.
  - eexists. unfold input_disabled, timeline_visible, welcome_visible. simpl.
    rewrite <- app_assoc, andb_false_r. simpl.
    split_and!; try done; apply Hwel.
Qed.

(** X5. While a submission is streaming, at every point of the stream, the
    input and the send button are disabled, the timeline is shown, and a
    second submission is rejected without any change of state: one
    submission is active at a time. *)
Theorem one_submission_at_a_time
    (st0 : state) (ls : list string) (st : state) (r : response) :
  process_lines ls (handleSubmit_begin st0) = Some st →
  loading st = true
  ∧ input_disabled st = true
  ∧ send_disabled st = true
  ∧ timeline_visible st = true
  ∧ welcome_visible st = false
  ∧ handleSubmit st r = Some st.
Proof.
  intros Hrun.
  destruct (process_lines_frame _ _ _ _ _ (handleSubmit_begin_messages st0) Hrun)
    as (m & Hms & _ & Hl & _).
  pose proof (process_lines_streaming [] _ _ _ (streaming_begin st0) Hrun)
    as (_ & _ & _ & _ & _ & _ & Hh).
  simpl in Hl.
  unfold input_disabled, send_disabled, timeline_visible, welcome_visible,
    handleSubmit, rejected.
  rewrite Hl, Hh, Hms, orb_true_r, length_app. simpl.
  split_and!; try done; apply Nat.eqb_neq; lia.
Qed.

End ChatFlows.

(** ** The session while the stream runs *)

Section ChatSession.
Context `{Host}.
Import Chat ChatView.

#[local] Arguments first_seen : simpl never.

Lemma apply_event_activeAgent (evs : list json) (data : json) (st st' : state) :
  streaming evs st → apply_event data st = Some st' →
  activeAgent st' =
    if type_is data "agent_start" || type_is data "agent_active"
    then agent_of (length evs) data else activeAgent st.
Proof.
  intros Hst [Hap _]%apply_event_Some. unfold update_event in Hap.
  rewrite (streaming_next_index _ _ Hst) in Hap.
  destruct (if type_is data "agent_text" then _ else _) as [ms2|];
    simpl in Hap; [|done].
  destruct (with_last _ ms2) as [ms3|]; simpl in Hap; [|done].
  simplify_eq. simpl.
  by destruct (type_is data "agent_start" || type_is data "agent_active").
Qed.

Lemma process_lines_activeAgent
    (evs : list json) (ls : list string) (st st' : state) :
  streaming evs st →
  activeAgent st = default (VStr "RootAgent") (last (announced 0 evs)) →
  process_lines ls st = Some st' →
  activeAgent st' =
    default (VStr "RootAgent") (last (announced 0 (evs ++ received ls))).
Proof.
  revert evs st. induction ls as [|l ls IH]; intros evs st Hst Hact Hrun.
  - simpl in Hrun. simplify_eq. change (received []) with (@nil json).
    by rewrite app_nil_r.
  - simpl in Hrun. rewrite process_line_event in Hrun. rewrite received_cons.
    destruct (event_of_line l) as [d|].
    + destruct (apply_event d st) as [st1|] eqn:Hap; simpl in Hrun; [|done].
      replace (evs ++ d :: received ls) with ((evs ++ [d]) ++ received ls)
        by (by rewrite <- app_assoc).
      eapply IH; [by eapply apply_event_streaming| |done].
      rewrite (apply_event_activeAgent _ _ _ _ Hst Hap), announced_snoc. simpl.
      destruct (type_is d "agent_start" || type_is d "agent_active").
      * by rewrite last_snoc.
      * by rewrite app_nil_r.
    + simpl in Hrun. by eapply IH.
Qed.

Lemma latest_elem_of (x : value) (l : list value) :
  default x (last l) ∈ x :: l.
Proof.
  destruct (last l) as [y|] eqn:Hlast; simpl.
  - apply elem_of_cons. right. by eapply last_Some_elem_of.
  - apply elem_of_cons. by left.
Qed.

(** X6. At every point of the stream the active agent is the agent of the
    latest agent_start or agent_active event, or 'RootAgent' when none has
    arrived, and it stands exactly once in agentHistory: the timeline has
    one entry for it. *)
Theorem activeAgent_is_latest_announced (st0 : state) (ls : list string) (st : state) :
  process_lines ls (handleSubmit_begin st0) = Some st →
  activeAgent st = default (VStr "RootAgent") (last (announced 0 (received ls)))
  ∧ ∃ before after,
      agentHistory st = before ++ activeAgent st :: after
      ∧ (activeAgent st ∉ before)
      ∧ (activeAgent st ∉ after).
Proof.
  intros Hrun.
  pose proof (process_lines_activeAgent [] _ _ _ (streaming_begin st0) eq_refl Hrun)
    as Hact. simpl in Hact.
  pose proof (process_lines_streaming [] _ _ _ (streaming_begin st0) Hrun)
    as (_ & _ & _ & _ & _ & _ & Hh). simpl in Hh.
  split; [done|].
  assert (Hin : activeAgent st ∈ agentHistory st).
  { rewrite Hh, elem_of_first_seen, Hact. apply latest_elem_of. }
  assert (Hnd : NoDup (agentHistory st)) by (rewrite Hh; apply NoDup_first_seen).
  destruct (list_elem_of_split _ _ Hin) as (before & after & Heq).
  exists before, after. split; [done|].
  rewrite Heq in Hnd. apply NoDup_app in Hnd as (_ & Hdisj & Hnd).
  apply NoDup_cons in Hnd as [Hafter _]. split; [|done].
  intros Hb. apply (Hdisj _ Hb). apply elem_of_cons. by left.
Qed.

Lemma announced_credited (a : value) (i : nat) (evs : list json) :
  a ∈ announced i evs → truthy a = true → a ∈ credited i evs.
Proof.
  revert i. induction evs as [|d evs IH]; intros i; simpl; [done|].
  intros [Hhead|Htail]%elem_of_app Ht; apply elem_of_app.
  - left. destruct (type_is d "agent_start" || type_is d "agent_active");
      [|by apply elem_of_nil in Hhead].
    apply list_elem_of_singleton in Hhead as ->. rewrite Ht, orb_true_r.
    by apply list_elem_of_singleton.
  - right. by apply IH.
Qed.

(** X8. At every point of the stream, each truthy agent of the timeline
    (agentHistory) is also credited on the message in progress
    (agentsUsed). *)
Theorem timeline_agents_are_credited (st0 : state) (ls : list string) (st : state) :
  process_lines ls (handleSubmit_begin st0) = Some st →
  ∃ m used,
    lastMsg st = Some m ∧ agentsUsed m = Some used
    ∧ ∀ a, a ∈ agentHistory st → truthy a = true → a ∈ used.
Proof.
  intros Hrun.
  pose proof (process_lines_streaming [] _ _ _ (streaming_begin st0) Hrun)
    as (earlier & m & Hms & _ & Hused & _ & Hh). simpl in Hused, Hh.
  exists m, (first_seen (VStr "RootAgent" :: credited 0 (received ls))).
  split_and!; [apply (lastMsg_snoc _ earlier); exact Hms | exact Hused |].
  intros a Hin Ht. rewrite Hh, elem_of_first_seen, elem_of_cons in Hin.
  rewrite elem_of_first_seen, elem_of_cons.
  destruct Hin as [->|Hin]; [by left|].
  right. by apply announced_credited.
Qed.

End ChatSession.

(** ** What the stream adds *)

Section ChatGrowth.
Context `{Host}.
Import Chat ChatView.

#[local] Arguments first_seen : simpl never.

Lemma first_seen_app (l k : list value) :
  ∃ more, first_seen (l ++ k) = first_seen l ++ more.
Proof.
  induction k as [|a k IH] using rev_ind.
  - exists []. by rewrite !app_nil_r.
  - destruct IH as [more IH]. rewrite app_assoc, first_seen_snoc, IH.
    destruct (decide (a ∈ l ++ k)).
    + by exists more.
    + exists (more ++ [a]). by rewrite app_assoc.
Qed.

Lemma announced_app (i : nat) (e1 e2 : list json) :
  announced i (e1 ++ e2) = announced i e1 ++ announced (i + length e1) e2.
Proof.
  revert i. induction e1 as [|d e1 IH]; intros i; simpl.
  - by rewrite Nat.add_0_r.
  - rewrite IH, <- app_assoc.
    replace (S i + length e1) with (i + S (length e1)) by lia. done.
Qed.

Lemma credited_app (i : nat) (e1 e2 : list json) :
  credited i (e1 ++ e2) = credited i e1 ++ credited (i + length e1) e2.
Proof.
  revert i. induction e1 as [|d e1 IH]; intros i; simpl.
  - by rewrite Nat.add_0_r.
  - rewrite IH, <- app_assoc.
    replace (S i + length e1) with (i + S (length e1)) by lia. done.
Qed.

Lemma concat_texts_app (l1 l2 : list string) :
  String.concat "" (l1 ++ l2) = String.concat "" l1 +:+ String.concat "" l2.
Proof.
  induction l2 as [|t l2 IH] using rev_ind.
  - by rewrite app_nil_r, string_append_empty_r.
  - by rewrite app_assoc, !concat_texts_snoc, IH, string_append_assoc.
Qed.

Lemma concat_texts_cons (t : string) (l : list string) :
  String.concat "" (t :: l) = t +:+ String.concat "" l.
Proof. apply (concat_texts_app [t] l). Qed.

(** X7. The stream only adds: between two points of a submission the
    events, the credited agents, the text of the message in progress and
    the agent history are extended at their end; nothing received earlier is
    removed, reordered or rewritten. *)
Theorem stream_only_extends
    (st0 : state) (ls1 ls2 : list string) (st1 st2 : state) :
  process_lines ls1 (handleSubmit_begin st0) = Some st1 →
  process_lines ls2 st1 = Some st2 →
  ∃ m1 m2 evs1 used1,
    lastMsg st1 = Some m1 ∧ lastMsg st2 = Some m2
    ∧ events m1 = Some evs1 ∧ agentsUsed m1 = Some used1
    ∧ events m2 = Some (evs1 ++ received ls2)
    ∧ (∃ more, agentsUsed m2 = Some (used1 ++ more))
    ∧ (∃ more, content m2 = content m1 +:+ more)
    ∧ (∃ more, agentHistory st2 = agentHistory st1 ++ more).
Proof.
  intros Hrun1 Hrun2.
  pose proof (process_lines_streaming [] _ _ _ (streaming_begin st0) Hrun1) as Hst1.
  pose proof (process_lines_streaming _ _ _ _ Hst1 Hrun2) as Hst2.
  simpl in Hst1, Hst2.
  destruct Hst1 as (earlier1 & m1 & Hms1 & Hev1 & Hused1 & Hc1 & Hh1).
  destruct Hst2 as (earlier2 & m2 & Hms2 & Hev2 & Hused2 & Hc2 & Hh2).
  exists m1, m2, (received ls1),
    (first_seen (VStr "RootAgent" :: credited 0 (received ls1))).
  split_and!.
  - apply (lastMsg_snoc _ earlier1). exact Hms1.
  - apply (lastMsg_snoc _ earlier2). exact Hms2.
  - exact Hev1.
  - exact Hused1.
  - exact Hev2.
  - rewrite Hused2, credited_app, app_comm_cons.
    destruct (first_seen_app (VStr "RootAgent" :: credited 0 (received ls1))
                (credited (0 + length (received ls1)) (received ls2))) as [more ->].
    by exists more.
  - exists (String.concat "" (map text_of (received ls2))).
    by rewrite Hc2, Hc1, map_app, concat_texts_app.
  - rewrite Hh2, Hh1, announced_app, app_comm_cons.
    destruct (first_seen_app (VStr "RootAgent" :: announced 0 (received ls1))
                (announced (0 + length (received ls1)) (received ls2))) as [more ->].
    by exists more.
Qed.

(** X9. Where the chunk boundaries fall does not matter as long as every
    chunk ends at the end of a line: two such ways of cutting the same text
    give the same result of the submission. *)
Theorem chunking_at_line_ends_is_irrelevant
    (st : state) (cs1 cs2 : list string) (e : ending) :
  Forall line_aligned cs1 → Forall line_aligned cs2 →
  String.concat "" cs1 = String.concat "" cs2 →
  handleSubmit st {| chunks := cs1; outcome := e |} =
  handleSubmit st {| chunks := cs2; outcome := e |}.
Proof.
  intros Hal1 Hal2 Heq. unfold handleSubmit. simpl.
  by rewrite (stream_loop_line_aligned cs1), (stream_loop_line_aligned cs2), Heq.
Qed.

Lemma text_is_string_printable (data : json) :
  text_is_string data → printable data.
Proof. intros Hs Htext. destruct (Hs Htext) as [t ->]. by eexists. Qed.

Lemma concat_fragments (evs : list json) :
  Forall text_is_string evs →
  String.concat "" (map text_of evs) = String.concat "" (fragments evs).
Proof.
  induction 1 as [|d evs Hd _ IH]; [done|].
  cbn [map]. rewrite concat_texts_cons, IH.
  assert (Hcons : fragments (d :: evs) =
            match fragment d with
            | Some t => t :: fragments evs
            | None => fragments evs
            end) by reflexivity.
  rewrite Hcons. unfold text_of, fragment. unfold text_is_string in Hd.
  destruct (type_is d "agent_text").
  - destruct (Hd eq_refl) as [t ->]. by rewrite concat_texts_cons.
  - done.
Qed.

(** X10. When every agent_text event of the stream carries a string as its
    content and the page can render the values of every event, a submission
    that is not rejected runs to its end, and after a natural end the text
    of the answer is the concatenation of those strings in receipt order. *)
Theorem text_is_concatenation_of_fragments (st0 : state) (cs : list string) :
  rejected st0 = false →
  Forall text_is_string (received (lines_of cs)) →
  Forall (λ data, renders data = true) (received (lines_of cs)) →
  ∃ st' answer,
    handleSubmit st0 {| chunks := cs; outcome := Done |} = Some st'
    ∧ lastMsg st' = Some answer
    ∧ content answer = String.concat "" (fragments (received (lines_of cs))).
Proof.
  intros Hrej Htyped Hrender.
  assert (Hp : Forall presentable (received (lines_of cs))).
  { apply Forall_forall. intros d Hd. split.
    - apply text_is_string_printable. by eapply Forall_forall in Htyped.
    - by eapply Forall_forall in Hrender. }
  destruct (handleSubmit_total st0 {| chunks := cs; outcome := Done |} Hp) as [st' Hrun].
  destruct (handleSubmit_inv _ _ _ Hrej Hrun) as (st1 & _ & Hst & Hend).
  destruct Hst as (earlier & m & Hms & _ & _ & Hc & _). simpl in Hc, Hend.
  rewrite (handleSubmit_end_spec _ _ _ _ Hms) in Hend. simplify_eq.
  exists (set_loading false (set_activeAgent VNull st1)), m.
  split_and!; [done| |].
  - apply (lastMsg_snoc _ earlier). exact Hms.
  - by rewrite Hc, concat_fragments.
Qed.

End ChatGrowth.

(** ** Payloads at the edge of the protocol *)

Section ChatEdges.
Context `{Host}.
Import Chat ChatView.

#[local] Arguments first_seen : simpl never.

(** X11. A [data: ] line whose payload is valid JSON and no object: the
    payload null is dropped like a malformed line, with no change of state;
    any other payload (a number, a string, a boolean, an array) is recorded
    as an event of the message in progress and changes nothing else, neither
    the text, nor agentsUsed, nor the session. *)
Theorem payload_that_is_no_object
    (evs : list json) (st : state) (line : string) (data : json) :
  streaming evs st →
  startsWith line "data: " = true →
  JSON_parse (slice 6 line) = Some data →
  (∀ ps, data ≠ JObj ps) →
  (data = JNull → process_line line st = Some st)
  ∧ (data ≠ JNull →
     ∃ earlier m,
       messages st = earlier ++ [m]
       ∧ process_line line st =
           Some (set_messages
                   (earlier ++ [{| role := role m; content := content m;
                                   events := Some (evs ++ [data]);
                                   agentsUsed := agentsUsed m |}])
                   st)).
Proof.
  intros (earlier & m & Hms & Hev & _) Hdata Hparse Hobj.
  unfold process_line. rewrite Hdata, Hparse. split.
  - by intros ->.
  - intros Hnull. exists earlier, m. split; [done|].
    assert (Hk : ∀ k, prop data k = None).
    { intros k. destruct data; try done. by destruct (Hobj props). }
    assert (Hap : apply_event data st =
              Some (set_messages
                      (earlier ++ [{| role := role m; content := content m;
                                      events := Some (evs ++ [data]);
                                      agentsUsed := agentsUsed m |}])
                      st)).
    { apply apply_event_Some. split.
      - unfold update_event, type_is, agent_of. rewrite !Hk. simpl.
        rewrite Hms, with_last_snoc. unfold add_event. simpl. by rewrite Hev.
      - unfold renders, child_ok, type_is. by rewrite !Hk. }
    destruct data; done.
Qed.

(** X12. An agent_text event without a content property, whose values the
    page can render, appends the text 'undefined' to the message in
    progress, and is recorded as an event. *)
Theorem agent_text_without_content_prints_undefined
    (evs : list json) (st : state) (line : string) (data : json) :
  streaming evs st →
  event_of_line line = Some data →
  type_is data "agent_text" = true →
  prop data "content" = None →
  renders data = true →
  ∃ m st' m',
    lastMsg st = Some m
    ∧ process_line line st = Some st'
    ∧ lastMsg st' = Some m'
    ∧ content m' = content m +:+ "undefined"
    ∧ events m' = Some (evs ++ [data]).
Proof.
  intros Hst Hline Htext Hnone Hrender.
  assert (Hp : presentable data).
  { split; [|done]. intros _. rewrite Hnone. by eexists. }
  destruct (apply_event_total _ _ _ Hst Hp) as [st' Hap].
  pose proof (apply_event_streaming _ _ _ _ Hst Hap) as Hst'.
  destruct Hst as (earlier & m & Hms & _ & _ & Hc & _).
  destruct Hst' as (earlier' & m' & Hms' & Hev' & _ & Hc' & _).
  exists m, st', m'. split_and!.
  - apply (lastMsg_snoc _ earlier). exact Hms.
  - by rewrite process_line_event, Hline.
  - apply (lastMsg_snoc _ earlier'). exact Hms'.
  - rewrite Hc', Hc, map_app. cbn [map]. rewrite concat_texts_snoc.
    unfold text_of at 2. by rewrite Htext, Hnone.
  - exact Hev'.
Qed.

(** X13. After a submission the answer shows its badges in the order in
    which the agents were first credited, 'RootAgent' first, and the
    summary of its event list counts exactly the received events; the
    event list is hidden when no event was received. *)
Theorem answer_badges_and_event_count (st0 : state) (r : response) (st' : state) :
  rejected st0 = false → handleSubmit st0 r = Some st' →
  let evs := received (lines_of (chunks r)) in
  ∃ answer,
    lastMsg st' = Some answer
    ∧ badges answer = first_seen (VStr "RootAgent" :: credited 0 evs)
    ∧ head (badges answer) = Some (VStr "RootAgent")
    ∧ event_summary answer =
        match evs with
        | [] => None
        | _ :: _ => Some (length evs)
        end.
Proof.
  intros Hrej Hrun evs.
  destruct (handleSubmit_inv _ _ _ Hrej Hrun) as (st1 & _ & Hst & Hend).
  destruct Hst as (earlier & m & Hms & Hev & Hused & _ & _).
  rewrite (handleSubmit_end_spec _ _ _ _ Hms) in Hend. simplify_eq.
  fold evs in Hev, Hused.
  assert (Hshape :
    ∀ a : message, events a = events m → agentsUsed a = agentsUsed m →
      badges a = first_seen (VStr "RootAgent" :: credited 0 evs)
      ∧ head (badges a) = Some (VStr "RootAgent")
      ∧ event_summary a = match evs with [] => None | _ :: _ => Some (length evs) end).
  { intros a Hea Hua. unfold badges, event_summary. rewrite Hea, Hua, Hev, Hused.
    split_and!; [done|done|]. by destruct evs. }
  destruct (outcome r) as [|msg].
  - exists m. split; [apply (lastMsg_snoc _ earlier); exact Hms | by apply Hshape].
  - eexists. split; [apply (lastMsg_snoc _ earlier); reflexivity | by apply Hshape].
Qed.

End ChatEdges.

(** ** The added theorems at work on the scenario *)

Section MoreWitnesses.
Import Chat ChatView Browser Demo Samples.

Lemma scenario_is_not_rejected : rejected asked = false.
Proof. vm_compute. reflexivity. Defined.

Lemma scenario_ends :
  handleSubmit asked {| chunks := scenario; outcome := Done |} = Some after_scenario.
Proof. vm_compute. reflexivity. Defined.

Lemma scenario_streams :
  process_lines (lines_of scenario) (handleSubmit_begin asked) = Some streamed_scenario.
Proof. vm_compute. reflexivity. Defined.

Lemma begin_is_streaming : streaming [] (handleSubmit_begin asked).
Proof. eexists _, _. split; [reflexivity|]. repeat split; reflexivity. Defined.

Lemma submission_appends_two_messages_witness :
  rejected asked = false
  ∧ handleSubmit asked {| chunks := scenario; outcome := Done |} = Some after_scenario
  ∧ ∃ answer,
      messages after_scenario =
        messages asked ++ [{| role := "user"; content := query asked;
                              events := None; agentsUsed := None |}; answer]
      ∧ role answer = "assistant"
      ∧ query after_scenario = ""
      ∧ loading after_scenario = false
      ∧ input_disabled after_scenario = false
      ∧ timeline_visible after_scenario = false
      ∧ welcome_visible after_scenario = false.
Proof.
  split; [exact scenario_is_not_rejected|]. split; [exact scenario_ends|].
  exact (submission_appends_two_messages asked
           {| chunks := scenario; outcome := Done |} after_scenario
           scenario_is_not_rejected scenario_ends).
Defined.

Lemma one_submission_at_a_time_witness :
  process_lines (lines_of scenario) (handleSubmit_begin asked) = Some streamed_scenario
  ∧ loading streamed_scenario = true
  ∧ input_disabled streamed_scenario = true
  ∧ send_disabled streamed_scenario = true
  ∧ timeline_visible streamed_scenario = true
  ∧ welcome_visible streamed_scenario = false
  ∧ handleSubmit streamed_scenario {| chunks := whole; outcome := Done |}
    = Some streamed_scenario.
Proof.
  split; [exact scenario_streams|].
  exact (one_submission_at_a_time asked (lines_of scenario) streamed_scenario
           {| chunks := whole; outcome := Done |} scenario_streams).
Defined.

Lemma activeAgent_is_latest_announced_witness :
  process_lines (lines_of scenario) (handleSubmit_begin asked) = Some streamed_scenario
  ∧ activeAgent streamed_scenario =
      default (VStr "RootAgent") (last (announced 0 (received (lines_of scenario))))
  ∧ ∃ before after,
      agentHistory streamed_scenario = before ++ activeAgent streamed_scenario :: after
      ∧ (activeAgent streamed_scenario ∉ before)
      ∧ (activeAgent streamed_scenario ∉ after).
Proof.
  split; [exact scenario_streams|].
  exact (activeAgent_is_latest_announced asked (lines_of scenario) streamed_scenario
           scenario_streams).
Defined.

Lemma timeline_agents_are_credited_witness :
  process_lines (lines_of scenario) (handleSubmit_begin asked) = Some streamed_scenario
  ∧ ∃ m used,
      lastMsg streamed_scenario = Some m ∧ agentsUsed m = Some used
      ∧ ∀ a, a ∈ agentHistory streamed_scenario → truthy a = true → a ∈ used.
Proof.
  split; [exact scenario_streams|].
  exact (timeline_agents_are_credited asked (lines_of scenario) streamed_scenario
           scenario_streams).
Defined.

Lemma stream_only_extends_witness :
  process_lines (split newline (root_start +:+ nl +:+ nl)) (handleSubmit_begin asked)
    = Some streamed_first
  ∧ process_lines (lines_of [rag_yes +:+ nl +:+ nl; rag_complies +:+ nl +:+ nl])
      streamed_first = Some streamed_scenario
  ∧ ∃ m1 m2 evs1 used1,
      lastMsg streamed_first = Some m1 ∧ lastMsg streamed_scenario = Some m2
      ∧ events m1 = Some evs1 ∧ agentsUsed m1 = Some used1
      ∧ events m2 =
          Some (evs1 ++ received (lines_of [rag_yes +:+ nl +:+ nl; rag_complies +:+ nl +:+ nl]))
      ∧ (∃ more, agentsUsed m2 = Some (used1 ++ more))
      ∧ (∃ more, content m2 = content m1 +:+ more)
      ∧ (∃ more, agentHistory streamed_scenario = agentHistory streamed_first ++ more).
Proof.
  assert (H1 : process_lines (split newline (root_start +:+ nl +:+ nl))
                 (handleSubmit_begin asked) = Some streamed_first)
    by (vm_compute; reflexivity).
  assert (H2 : process_lines
                 (lines_of [rag_yes +:+ nl +:+ nl; rag_complies +:+ nl +:+ nl])
                 streamed_first = Some streamed_scenario)
    by (vm_compute; reflexivity).
  split; [exact H1|]. split; [exact H2|].
  exact (stream_only_extends asked _ _ streamed_first streamed_scenario H1 H2).
Defined.

Lemma chunking_at_line_ends_is_irrelevant_witness :
  Forall line_aligned scenario
  ∧ Forall line_aligned scenario_in_one_chunk
  ∧ String.concat "" scenario = String.concat "" scenario_in_one_chunk
  ∧ handleSubmit asked {| chunks := scenario; outcome := Done |} =
    handleSubmit asked {| chunks := scenario_in_one_chunk; outcome := Done |}.
Proof.
  assert (H1 : Forall line_aligned scenario).
  { repeat constructor.
    - exists (root_start +:+ nl). vm_compute. reflexivity.
    - exists (rag_yes +:+ nl). vm_compute. reflexivity.
    - exists (rag_complies +:+ nl). vm_compute. reflexivity. }
  assert (H2 : Forall line_aligned scenario_in_one_chunk).
  { repeat constructor.
    exists (root_start +:+ nl +:+ nl +:+ rag_yes +:+ nl +:+ nl +:+ rag_complies +:+ nl).
    vm_compute. reflexivity. }
  assert (H3 : String.concat "" scenario = String.concat "" scenario_in_one_chunk)
    by (vm_compute; reflexivity).
  split; [exact H1|]. split; [exact H2|]. split; [exact H3|].
  exact (chunking_at_line_ends_is_irrelevant asked scenario scenario_in_one_chunk
           Done H1 H2 H3).
Defined.

Lemma text_is_concatenation_of_fragments_witness :
  rejected asked = false
  ∧ Forall text_is_string (received (lines_of scenario))
  ∧ Forall (λ data, renders data = true) (received (lines_of scenario))
  ∧ ∃ st' answer,
      handleSubmit asked {| chunks := scenario; outcome := Done |} = Some st'
      ∧ lastMsg st' = Some answer
      ∧ content answer = String.concat "" (fragments (received (lines_of scenario))).
Proof.
  assert (H2 : Forall text_is_string (received (lines_of scenario))).
  { replace (received (lines_of scenario))
      with [JObj [("type", JStr "agent_start"); ("agent", JStr "RootAgent")];
            JObj [("type", JStr "agent_text"); ("agent", JStr "RAGAgent");
                  ("content", JStr "Yes")];
            JObj [("type", JStr "agent_text"); ("agent", JStr "RAGAgent");
                  ("content", JStr ", it complies.")]]
      by (vm_compute; reflexivity).
    repeat constructor.
    - intros Hk. discriminate Hk.
    - intros _. exists "Yes". reflexivity.
    - intros _. exists ", it complies.". reflexivity. }
  assert (H3 : Forall (λ data, renders data = true) (received (lines_of scenario))).
  { replace (received (lines_of scenario))
      with [JObj [("type", JStr "agent_start"); ("agent", JStr "RootAgent")];
            JObj [("type", JStr "agent_text"); ("agent", JStr "RAGAgent");
                  ("content", JStr "Yes")];
            JObj [("type", JStr "agent_text"); ("agent", JStr "RAGAgent");
                  ("content", JStr ", it complies.")]]
      by (vm_compute; reflexivity).
    repeat constructor. }
  split; [exact scenario_is_not_rejected|]. split; [exact H2|]. split; [exact H3|].
  exact (text_is_concatenation_of_fragments asked scenario
           scenario_is_not_rejected H2 H3).
Defined.

Lemma payload_that_is_no_object_witness :
  streaming [] (handleSubmit_begin asked)
  ∧ startsWith bare_number "data: " = true
  ∧ JSON_parse (slice 6 bare_number) = Some (JNum "42")
  ∧ (∀ ps, JNum "42" ≠ JObj ps)
  ∧ ∃ earlier m,
      messages (handleSubmit_begin asked) = earlier ++ [m]
      ∧ process_line bare_number (handleSubmit_begin asked) =
          Some (set_messages
                  (earlier ++ [{| role := role m; content := content m;
                                  events := Some ([] ++ [JNum "42"]);
                                  agentsUsed := agentsUsed m |}])
                  (handleSubmit_begin asked)).
Proof.
  assert (H2 : startsWith bare_number "data: " = true) by (vm_compute; reflexivity).
  assert (H3 : JSON_parse (slice 6 bare_number) = Some (JNum "42"))
    by (vm_compute; reflexivity).
  assert (H4 : ∀ ps, JNum "42" ≠ JObj ps) by (intros ps Heq; discriminate Heq).
  assert (H5 : JNum "42" ≠ JNull) by (intros Heq; discriminate Heq).
  split; [exact begin_is_streaming|]. split; [exact H2|]. split; [exact H3|].
  split; [exact H4|].
  exact (proj2 (payload_that_is_no_object [] (handleSubmit_begin asked) bare_number
                  (JNum "42") begin_is_streaming H2 H3 H4) H5).
Defined.

Lemma agent_text_without_content_prints_undefined_witness :
  streaming [] (handleSubmit_begin asked)
  ∧ event_of_line silent_text = Some silent_text_event
  ∧ type_is silent_text_event "agent_text" = true
  ∧ prop silent_text_event "content" = None
  ∧ renders silent_text_event = true
  ∧ ∃ m st' m',
      lastMsg (handleSubmit_begin asked) = Some m
      ∧ process_line silent_text (handleSubmit_begin asked) = Some st'
      ∧ lastMsg st' = Some m'
      ∧ content m' = content m +:+ "undefined"
      ∧ events m' = Some ([] ++ [silent_text_event]).
Proof.
  assert (H2 : event_of_line silent_text = Some silent_text_event)
    by (vm_compute; reflexivity).
  assert (H3 : type_is silent_text_event "agent_text" = true) by reflexivity.
  assert (H4 : prop silent_text_event "content" = None) by reflexivity.
  assert (H5 : renders silent_text_event = true) by reflexivity.
  split; [exact begin_is_streaming|]. split; [exact H2|]. split; [exact H3|].
  split; [exact H4|]. split; [exact H5|].
  exact (agent_text_without_content_prints_undefined [] (handleSubmit_begin asked)
           silent_text silent_text_event begin_is_streaming H2 H3 H4 H5).
Defined.

Lemma answer_badges_and_event_count_witness :
  rejected asked = false
  ∧ handleSubmit asked {| chunks := scenario; outcome := Done |} = Some after_scenario
  ∧ ∃ answer,
      lastMsg after_scenario = Some answer
      ∧ badges answer =
          first_seen (VStr "RootAgent" :: credited 0 (received (lines_of scenario)))
      ∧ head (badges answer) = Some (VStr "RootAgent")
      ∧ event_summary answer =
          match received (lines_of scenario) with
          | [] => None
          | _ :: _ => Some (length (received (lines_of scenario)))
          end.
Proof.
  split; [exact scenario_is_not_rejected|]. split; [exact scenario_ends|].
  exact (answer_badges_and_event_count asked
           {| chunks := scenario; outcome := Done |} after_scenario
           scenario_is_not_rejected scenario_ends).
Defined.

End MoreWitnesses.

(** ** Selecting files *)

Section UploadSelection.
Import Upload UploadView.

(** X14. Picking files replaces the selection and touches neither the
    pending flag nor the result banner; the batch that an upload sends is
    the latest selection, whatever was picked before. *)
Theorem latest_selection_is_uploaded
    (env : option string) (st : state) (fs1 fs2 : list file) (r : reply) :
  fs2 ≠ [] →
  handleFileChange fs2 (handleFileChange fs1 st) = handleFileChange fs2 st
  ∧ uploading (handleFileChange fs2 st) = uploading st
  ∧ result (handleFileChange fs2 st) = result st
  ∧ file_list_visible (handleFileChange fs2 st) = true
  ∧ ∃ sent,
      snd (handleUpload env (handleFileChange fs2 (handleFileChange fs1 st)) r) = [sent]
      ∧ map snd (formData sent) = fs2.
Proof.
  intros Hfs. split_and!; [done..| |].
  - unfold file_list_visible. simpl. by destruct fs2.
  - rewrite handleUpload_with_files by exact Hfs.
    eexists. split; [reflexivity|]. apply formData_entries.
Qed.

Lemma latest_selection_is_uploaded_witness :
  files Samples.picked ≠ []
  ∧ ∃ sent,
      snd (handleUpload None
             (handleFileChange (files Samples.picked)
                (handleFileChange [{| name := "draft.pdf"; size := 100 |}] initial))
             (Rejected "Network Error")) = [sent]
      ∧ map snd (formData sent) = files Samples.picked.
Proof.
  assert (H1 : files Samples.picked ≠ []) by (intros Hnil; discriminate Hnil).
  split; [exact H1|].
  destruct (latest_selection_is_uploaded None initial
              [{| name := "draft.pdf"; size := 100 |}] (files Samples.picked)
              (Rejected "Network Error") H1) as (_ & _ & _ & _ & Hsent).
  exact Hsent.
Defined.

End UploadSelection.
